(** * EV vs petrol dashboard: the filter and the aggregations of
    [streamlit_app.py], embedded as functions over lists of rows.

    A DataFrame is a list of rows in index order.  Integer columns are [Z],
    fractional columns are exact rationals [Q]; the result of a float
    operation is an [fval], which adds the two infinities and NaN that
    pandas produces for a division by zero and for a reduction over an
    empty column.  Binary rounding error of float64 is not modelled. *)

From Stdlib Require Import List ZArith QArith String Bool.
From Stdlib Require Import Permutation Sorted Lia Lqa.
Import ListNotations.

Local Open Scope Z_scope.

(** ** Rows of the dataset *)

Record row : Type := mkRow {
  country : string;
  region : string;
  year : Z;
  ev_sales : Z;
  petrol_car_sales : Z;
  diesel_car_sales : Z;
  ev_market_share : Q;
  ev_growth_rate_yoy : Q;
  gdp_per_capita : Q;
  charging_stations : Z;
  avg_ev_range_km : Q;
  co2_emissions_transport_mt : Q
}.

Definition DataFrame := list row.

(** ** Float results *)

Inductive fval : Type :=
| Fin (q : Q)
| PInf
| NInf
| NaN.

(** Outcome of a statement of the script: it returns, or it raises.
    [ValueError] is what [int(nan)] raises; [NoDataError] is the name the
    specification uses, no statement of the script constructs it. *)
Inductive exn : Type := ValueError | NoDataError.

Inductive outcome (A : Type) : Type :=
| Returned (a : A)
| Raised (e : exn).
Arguments Returned {A} a.
Arguments Raised {A} e.

Definition bind {A B} (o : outcome A) (k : A -> outcome B) : outcome B :=
  match o with
  | Returned a => k a
  | Raised e => Raised e
  end.

Notation "x <- c ;; k" := (bind c (fun x => k))
  (at level 61, c at next level, right associativity).

(** ** Series reductions, as pandas defines them *)

Module Series.

(** [Series.sum()]: 0 on an empty column. *)
Definition sum (l : list Z) : Z := fold_right Z.add 0 l.

(** [Series.max()] and [Series.min()] of an integer column: NaN ([None])
    on an empty column. *)
Definition max (l : list Z) : option Z :=
  match l with
  | [] => None
  | x :: t => Some (fold_left Z.max t x)
  end.

Definition min (l : list Z) : option Z :=
  match l with
  | [] => None
  | x :: t => Some (fold_left Z.min t x)
  end.

Definition qsum (l : list Q) : Q := fold_right Qplus 0%Q l.

(** [Series.mean()]: the sum over the count, NaN on an empty column. *)
Definition mean (l : list Q) : fval :=
  match l with
  | [] => NaN
  | _ :: _ => Fin (Qred (qsum l / inject_Z (Z.of_nat (List.length l))))
  end.

(** [Series.unique()]: the distinct values in order of first appearance. *)
Fixpoint unique {A} (eqb : A -> A -> bool) (l : list A) : list A :=
  match l with
  | [] => []
  | x :: t => x :: filter (fun y => negb (eqb x y)) (unique eqb t)
  end.

End Series.

(** Scalar float arithmetic on [fval]. *)
Definition fmul (x : fval) (k : Q) : fval :=
  match x with
  | Fin q => Fin (Qred (q * k))
  | PInf => match (0 ?= k)%Q with Lt => PInf | Gt => NInf | Eq => NaN end
  | NInf => match (0 ?= k)%Q with Lt => NInf | Gt => PInf | Eq => NaN end
  | NaN => NaN
  end.

(** Integer column divided by integer column: pandas converts to float64,
    so x/0 is an infinity of the sign of x and 0/0 is NaN. *)
Definition fdiv (a b : Z) : fval :=
  if b =? 0 then
    match a ?= 0 with Gt => PInf | Lt => NInf | Eq => NaN end
  else Fin (Qred (inject_Z a / inject_Z b)).

(** ** Sorting (Python [sorted], and the sorted group keys of [groupby]) *)

Section Sort.
Context {A : Type} (leb : A -> A -> bool).

Fixpoint insert (x : A) (l : list A) : list A :=
  match l with
  | [] => [x]
  | y :: t => if leb x y then x :: y :: t else y :: insert x t
  end.

Fixpoint sorted (l : list A) : list A :=
  match l with
  | [] => []
  | x :: t => insert x (sorted t)
  end.
End Sort.

(** ** Sidebar: the filter (lines 26-41) *)

(** [df['country'].isin(selected_countries)] on one row. *)
Definition isin (c : string) (selected : list string) : bool :=
  existsb (String.eqb c) selected.

Definition row_mask (selected_countries : list string)
  (selected_years : Z * Z) (r : row) : bool :=
  isin (country r) selected_countries
  && (fst selected_years <=? year r)
  && (year r <=? snd selected_years).

Definition filtered_df (df : DataFrame) (selected_countries : list string)
  (selected_years : Z * Z) : DataFrame :=
  filter (row_mask selected_countries selected_years) df.

(** The options of the country multiselect. *)
Definition country_options (df : DataFrame) : list string :=
  sorted String.leb (Series.unique String.eqb (map country df)).

(** The bounds of the year slider: [int(df['year'].min())] and
    [int(df['year'].max())]; [int] of NaN raises [ValueError]. *)
Definition int_of (x : option Z) : outcome Z :=
  match x with
  | Some z => Returned z
  | None => Raised ValueError
  end.

Definition year_slider_bounds (df : DataFrame) : outcome (Z * Z) :=
  lo <- int_of (Series.min (map year df)) ;;
  hi <- int_of (Series.max (map year df)) ;;
  Returned (lo, hi).

(** ** Chart 1: sales over time (line 48) *)

Definition eq_year (y : Z) (r : row) : bool := year r =? y.
Definition eq_country (c : string) (r : row) : bool := String.eqb (country r) c.

(** [groupby] sorts the group keys; a key with no row is no group. *)
Definition year_keys (v : DataFrame) : list Z :=
  sorted Z.leb (Series.unique Z.eqb (map year v)).

Definition country_keys (v : DataFrame) : list string :=
  sorted String.leb (Series.unique String.eqb (map country v)).

Record sales_row : Type := mkSales {
  s_year : Z;
  s_ev_sales : Z;
  s_petrol_car_sales : Z
}.

Definition sales_by_year (v : DataFrame) : list sales_row :=
  map (fun y =>
         let g := filter (eq_year y) v in
         mkSales y (Series.sum (map ev_sales g))
                   (Series.sum (map petrol_car_sales g)))
      (year_keys v).

(** ** Chart 2: market share by country (lines 58-61) *)

(** Round half to even to an integer, as [numpy.rint]. *)
Definition rint (q : Q) : Z :=
  let n := Qnum q in
  let d := Z.pos (Qden q) in
  let f := n / d in
  match 2 * (n mod d) ?= d with
  | Lt => f
  | Gt => f + 1
  | Eq => if Z.even f then f else f + 1
  end.

(** [.round(2)]: scale by 100, round, scale back.  The quotient and the
    products are exact rationals here; in float64 each of them is rounded
    to the nearest double first, so a share that lies on or next to a
    rounding boundary can differ from this one in its last decimal
    (23 of 160 is exactly 14.375: 14.38 here, 14.37 in float64). *)
Definition fround2 (x : fval) : fval :=
  match x with
  | Fin q => Fin (Qred (inject_Z (rint (q * 100)) / 100))
  | other => other
  end.

Record share_row : Type := mkShare {
  m_country : string;
  m_ev_sales : Z;
  m_petrol_car_sales : Z;
  m_diesel_car_sales : Z;
  m_total : Z;
  m_ev_share : fval
}.

Definition share_of_group (v : DataFrame) (c : string) : share_row :=
  let g := filter (eq_country c) v in
  let ev := Series.sum (map ev_sales g) in
  let petrol := Series.sum (map petrol_car_sales g) in
  let diesel := Series.sum (map diesel_car_sales g) in
  let total := ev + petrol + diesel in
  mkShare c ev petrol diesel total (fround2 (fmul (fdiv ev total) 100)).

(** The table of lines 58-60 after [reset_index], before it is sorted. *)
Definition market_share_table (v : DataFrame) : list share_row :=
  map (share_of_group v) (country_keys v).

Definition is_nan (x : fval) : bool :=
  match x with NaN => true | _ => false end.

(** Order of the floats that are not NaN. *)
Definition fleb (x y : fval) : bool :=
  match x, y with
  | NaN, _ | _, NaN => false
  | NInf, _ => true
  | _, PInf => true
  | Fin a, Fin b => Qle_bool a b
  | _, _ => false
  end.

Definition share_nan (r : share_row) : bool := is_nan (m_ev_share r).
Definition share_geb (a b : share_row) : bool :=
  fleb (m_ev_share b) (m_ev_share a).

(** [sort_values('ev_share', ascending=False)] with the default
    [kind='quicksort'] and [na_position='last']: the rows whose key is not
    NaN come first, in descending order of the key, and the rows whose key
    is NaN follow in index order.  The default kind does not fix the order
    of rows with equal keys, so the result is a relation. *)
Inductive sort_values_desc : list share_row -> list share_row -> Prop :=
| sort_values_desc_intro (l s : list share_row) :
    Permutation (filter (fun r => negb (share_nan r)) l) s ->
    StronglySorted (fun a b => share_geb a b = true) s ->
    sort_values_desc l (s ++ filter share_nan l).

(** One sort that meets it: the one [kind='stable'] would give. *)
Definition sort_values_stable (l : list share_row) : list share_row :=
  sorted share_geb (filter (fun r => negb (share_nan r)) l)
  ++ filter share_nan l.

Definition head {A} (n : nat) (l : list A) : list A := firstn n l.

Definition market_share_by_country (v : DataFrame) (out : list share_row)
  : Prop :=
  exists s, sort_values_desc (market_share_table v) s /\ out = head 15 s.

Definition market_share_by_country_stable (v : DataFrame) : list share_row :=
  head 15 (sort_values_stable (market_share_table v)).

(** ** Charts 3, 6 and 9: the latest year (lines 72-77, 112-113, 154) *)

Definition latest_year (v : DataFrame) : option Z :=
  Series.max (map year v).

(** [filtered_df['year'] == latest_year]: false on every row when the
    latest year is NaN. *)
Definition eq_latest (ly : option Z) (r : row) : bool :=
  match ly with
  | Some y => year r =? y
  | None => false
  end.

Definition latest_data (v : DataFrame) : DataFrame :=
  filter (eq_latest (latest_year v)) v.

Definition vehicle_dist (v : DataFrame) : outcome (list (string * Z)) :=
  let latest := latest_data v in
  Returned [ ("EV"%string, Series.sum (map ev_sales latest));
             ("Petrol"%string, Series.sum (map petrol_car_sales latest));
             ("Diesel"%string, Series.sum (map diesel_car_sales latest)) ].

(** [drop_duplicates('country')], which keeps the first row of each
    country; [seen] holds the countries already kept. *)
Fixpoint drop_duplicates_from (seen : list string) (l : DataFrame)
  : DataFrame :=
  match l with
  | [] => []
  | r :: t =>
      if isin (country r) seen then drop_duplicates_from seen t
      else r :: drop_duplicates_from (country r :: seen) t
  end.

Definition drop_duplicates (l : DataFrame) : DataFrame :=
  drop_duplicates_from [] l.

Record gdp_row : Type := mkGdp {
  g_row : row;
  ev_market_share_pct : Q
}.

Definition gdp_ev_data (v : DataFrame) : list gdp_row :=
  map (fun r => mkGdp r (Qred (ev_market_share r * 100)))
      (drop_duplicates (filter (eq_latest (latest_year v)) v)).

Definition range_data (v : DataFrame) : DataFrame :=
  filter (eq_latest (latest_year v)) v.

(** ** Chart 10: the heatmap (lines 165-174) *)

Record heat_row : Type := mkHeat {
  h_country : string;
  h_year : Z;
  h_ev_market_share : fval
}.

Definition pair_eqb (a b : string * Z) : bool :=
  String.eqb (fst a) (fst b) && (snd a =? snd b).

Definition pair_leb (a b : string * Z) : bool :=
  if String.eqb (fst a) (fst b) then snd a <=? snd b
  else String.leb (fst a) (fst b).

Definition eq_pair (k : string * Z) (r : row) : bool :=
  pair_eqb (country r, year r) k.

(** The groups of [groupby(['country', 'year'])], in key order. *)
Definition heat_keys (v : DataFrame) : list (string * Z) :=
  sorted pair_leb
    (Series.unique pair_eqb (map (fun r => (country r, year r)) v)).

Definition heatmap_data (v : DataFrame) : list heat_row :=
  map (fun k =>
         mkHeat (fst k) (snd k)
           (Series.mean (map ev_market_share (filter (eq_pair k) v))))
      (heat_keys v).

Record pivot_table : Type := mkPivot {
  p_index : list string;
  p_columns : list Z;
  p_values : list (list fval)
}.

Definition heat_key (h : heat_row) : string * Z := (h_country h, h_year h).

Fixpoint has_duplicates (ks : list (string * Z)) : bool :=
  match ks with
  | [] => false
  | k :: t => existsb (pair_eqb k) t || has_duplicates t
  end.

(** The cell of the reshaped matrix: the value of the entry with that
    index and column, NaN where there is none. *)
Definition cell (data : list heat_row) (c : string) (y : Z) : fval :=
  match find (fun h => pair_eqb (heat_key h) (c, y)) data with
  | Some h => h_ev_market_share h
  | None => NaN
  end.

(** [DataFrame.pivot]: raises [ValueError] when two entries share their
    index and column. *)
Definition pivot (data : list heat_row) : outcome pivot_table :=
  if has_duplicates (map heat_key data) then Raised ValueError
  else
    let idx := sorted String.leb (Series.unique String.eqb (map h_country data)) in
    let cols := sorted Z.leb (Series.unique Z.eqb (map h_year data)) in
    Returned (mkPivot idx cols
                (map (fun c => map (fun y => cell data c y) cols) idx)).

Definition heatmap_pivot (v : DataFrame) : outcome pivot_table :=
  pivot (heatmap_data v).

(** The matrix of the figure: the index and the columns of
    [heatmap_pivot], and [heatmap_pivot.values * 100] as [z]. *)
Definition heatmap_z (v : DataFrame) : outcome pivot_table :=
  p <- heatmap_pivot v ;;
  Returned (mkPivot (p_index p) (p_columns p)
              (map (map (fun x => fmul x 100)) (p_values p))).

(** The [z] value shown for a country and a year: [None] when the matrix
    has no such row or no such column. *)
Fixpoint position {A} (eqb : A -> A -> bool) (x : A) (l : list A)
  : option nat :=
  match l with
  | [] => None
  | y :: t => if eqb y x then Some O
              else option_map S (position eqb x t)
  end.

Definition z_at (p : pivot_table) (c : string) (y : Z) : option fval :=
  match position String.eqb c (p_index p), position Z.eqb y (p_columns p) with
  | Some i, Some j => nth_error (nth i (p_values p) []) j
  | _, _ => None
  end.

(** ** Key metrics (lines 190-204) *)

Record metrics : Type := mkMetrics {
  total_ev : Z;
  total_petrol : Z;
  avg_ev_share : fval;
  total_charging : option Z
}.

Definition key_metrics (v : DataFrame) : outcome metrics :=
  Returned (mkMetrics
              (Series.sum (map ev_sales v))
              (Series.sum (map petrol_car_sales v))
              (fmul (Series.mean (map ev_market_share v)) 100)
              (Series.max (map charging_stations v))).

(** ** Order-preserving sub-sequences *)

Inductive Subseq {A : Type} : list A -> list A -> Prop :=
| Subseq_nil : Subseq [] []
| Subseq_keep x s l : Subseq s l -> Subseq (x :: s) (x :: l)
| Subseq_drop x s l : Subseq s l -> Subseq s (x :: l).

(** The two predicates of the filter, as propositions. *)
Definition selected (selected_countries : list string)
  (selected_years : Z * Z) (r : row) : Prop :=
  In (country r) selected_countries
  /\ fst selected_years <= year r <= snd selected_years.

(** The sum of column [f] over the group of key [k], as
    [groupby(key)[f].sum()] computes it for each group. *)
Definition group_sum {K} (eqb : K -> K -> bool) (key : row -> K)
  (f : row -> Z) (v : DataFrame) (k : K) : Z :=
  Series.sum (map f (filter (fun r => eqb (key r) k) v)).

(** A share that is a percentage: a number from 0 to 100. *)
Definition percent (x : fval) : Prop :=
  match x with
  | Fin q => (0 <= q <= 100)%Q
  | _ => False
  end.

(** Sales counts are not negative. *)
Definition nonneg_sales (v : DataFrame) : Prop :=
  Forall (fun r => 0 <= ev_sales r
                   /\ 0 <= petrol_car_sales r
                   /\ 0 <= diesel_car_sales r) v.


(** ** The rest of the script *)

(** The default of the country multiselect (line 29):
    [sorted(df['country'].unique())[:5]]. *)
Definition default_countries (df : DataFrame) : list string :=
  firstn 5 (country_options df).

(** Chart 4 (line 90): [groupby(['year', 'region'])['ev_sales'].sum()]. *)
Definition year_region (r : row) : Z * string := (year r, region r).

Definition yr_eqb (a b : Z * string) : bool :=
  (fst a =? fst b) && String.eqb (snd a) (snd b).

Definition yr_leb (a b : Z * string) : bool :=
  if fst a =? fst b then String.leb (snd a) (snd b) else fst a <=? fst b.

Definition regional_keys (v : DataFrame) : list (Z * string) :=
  sorted yr_leb (Series.unique yr_eqb (map year_region v)).

Record regional_row : Type := mkRegional {
  r_year : Z;
  r_region : string;
  r_ev_sales : Z
}.

Definition regional_sales (v : DataFrame) : list regional_row :=
  map (fun k =>
         mkRegional (fst k) (snd k)
           (Series.sum
              (map ev_sales (filter (fun r => yr_eqb (year_region r) k) v))))
      (regional_keys v).

(** Charts 7 and 8 (lines 131 and 142): the mean of a column per year.
    [charging_stations] is an integer column; its mean is a float. *)
Record mean_row : Type := mkMean {
  a_year : Z;
  a_value : fval
}.

Definition emissions_data (v : DataFrame) : list mean_row :=
  map (fun y =>
         mkMean y
           (Series.mean
              (map co2_emissions_transport_mt (filter (eq_year y) v))))
      (year_keys v).

Definition charging_data (v : DataFrame) : list mean_row :=
  map (fun y =>
         mkMean y
           (Series.mean
              (map (fun r => inject_Z (charging_stations r))
                 (filter (eq_year y) v))))
      (year_keys v).

(** The raw data table (line 208): [sort_values('year', ascending=False)]
    with the default kind.  The [year] column has no NaN; rows of the same
    year come in an order the default kind does not fix. *)
Inductive sort_values_year_desc : DataFrame -> DataFrame -> Prop :=
| sort_values_year_desc_intro (l s : DataFrame) :
    Permutation l s ->
    StronglySorted (fun a b => year b <= year a) s ->
    sort_values_year_desc l s.

Definition year_geb (a b : row) : bool := year b <=? year a.

(** One sort that meets it. *)
Definition sort_values_year_stable (l : DataFrame) : DataFrame :=
  sorted year_geb l.

(** Chart 5 (line 101): three columns of the view, row by row. *)
Record growth_row : Type := mkGrowth {
  gr_year : Z;
  gr_ev_growth_rate_yoy : Q;
  gr_country : string
}.

Definition growth_data (v : DataFrame) : list growth_row :=
  map (fun r => mkGrowth (year r) (ev_growth_rate_yoy r) (country r)) v.

(** ** Sums and ties, stated apart from the reductions above *)

(** [SumOf add zero l s]: [s] is the values of [l] added up from [zero]. *)
Inductive SumOf {A : Type} (add : A -> A -> A) (zero : A)
  : list A -> A -> Prop :=
| SumOf_nil : SumOf add zero [] zero
| SumOf_cons x l s : SumOf add zero l s -> SumOf add zero (x :: l) (add x s).


(** * Properties *)

#[local] Hint Constructors Subseq : core.

Lemma Subseq_refl {A} (l : list A) : Subseq l l.
Proof. induction l; auto. Qed.

Lemma Subseq_In {A} (s l : list A) :
  Subseq s l -> forall x, In x s -> In x l.
Proof. induction 1; simpl; intuition. Qed.

Lemma Subseq_filter {A} (p : A -> bool) (l : list A) :
  Subseq (filter p l) l.
Proof. induction l as [|x l IH]; simpl; [|destruct (p x)]; auto. Qed.

Lemma Subseq_filter_greatest {A} (p : A -> bool) (s l : list A) :
  Subseq s l -> Forall (fun x => p x = true) s -> Subseq s (filter p l).
Proof.
  induction 1 as [|x s l Hs IH|x s l Hs IH]; simpl; intros Hall; auto.
  - inversion Hall as [|? ? Hx Hrest]; subst. rewrite Hx. auto.
  - destruct (p x); auto.
Qed.

Lemma isin_In c sel : isin c sel = true <-> In c sel.
Proof.
  unfold isin. rewrite existsb_exists. split.
  - intros [x [Hin Heq]]. apply String.eqb_eq in Heq. now subst.
  - intros Hin. exists c. split; [assumption|apply String.eqb_refl].
Qed.

Lemma row_mask_selected sel yr r :
  row_mask sel yr r = true <-> selected sel yr r.
Proof.
  unfold row_mask, selected.
  rewrite !andb_true_iff, isin_In, !Z.leb_le. tauto.
Qed.

(** C1: the filter keeps exactly the rows whose country is selected and
    whose year lies between the two bounds, both inclusive.  The view is an
    order-preserving sub-sequence of the dataset, every row of it satisfies
    both predicates, and it is the greatest such sub-sequence: any
    sub-sequence of the dataset made of selected rows is a sub-sequence of
    the view, so no selected row is lost and the input order is kept. *)
Theorem filtered_df_exact (df : DataFrame) (sel : list string) (yr : Z * Z) :
  Subseq (filtered_df df sel yr) df
  /\ Forall (selected sel yr) (filtered_df df sel yr)
  /\ (forall r, In r (filtered_df df sel yr) <-> In r df /\ selected sel yr r)
  /\ (forall s, Subseq s df -> Forall (selected sel yr) s ->
        Subseq s (filtered_df df sel yr)).
Proof.
  unfold filtered_df. split; [apply Subseq_filter|]. split; [|split].
  - apply Forall_forall. intros r Hr. apply filter_In in Hr.
    now apply row_mask_selected.
  - intros r. rewrite filter_In, row_mask_selected. tauto.
  - intros s Hs Hall. apply Subseq_filter_greatest; [assumption|].
    eapply Forall_impl; [|exact Hall]. intros r. apply row_mask_selected.
Qed.

(** ** Sorting and distinct values *)

Section SortFacts.
Context {A : Type} (leb : A -> A -> bool).

Lemma insert_perm (x : A) (l : list A) :
  Permutation (x :: l) (insert leb x l).
Proof.
  induction l as [|y t IH]; simpl; [reflexivity|].
  destruct (leb x y); [reflexivity|].
  rewrite perm_swap. now apply perm_skip.
Qed.

Lemma sorted_perm (l : list A) : Permutation l (sorted leb l).
Proof.
  induction l as [|x t IH]; simpl; [constructor|].
  rewrite <- insert_perm. now apply perm_skip.
Qed.

Lemma sorted_In (l : list A) (x : A) : In x (sorted leb l) <-> In x l.
Proof.
  split; apply Permutation_in;
    [symmetry|]; apply sorted_perm.
Qed.

Lemma sorted_NoDup (l : list A) : NoDup l -> NoDup (sorted leb l).
Proof. apply Permutation_NoDup, sorted_perm. Qed.

Lemma sorted_length (l : list A) : List.length (sorted leb l) = List.length l.
Proof. symmetry. apply Permutation_length, sorted_perm. Qed.

(** With an order that is total and transitive on the values of the
    list, the result is ordered. *)
Section Ordered.
Variable P : A -> Prop.
Hypothesis leb_total :
  forall a b, P a -> P b -> leb a b = true \/ leb b a = true.
Hypothesis leb_trans :
  forall a b c, leb a b = true -> leb b c = true -> leb a c = true.

Lemma insert_Forall (x : A) (l : list A) :
  P x -> Forall P l -> Forall P (insert leb x l).
Proof.
  intros Hx Hl.
  apply (Permutation_Forall (insert_perm x l)). now constructor.
Qed.

Lemma sorted_Forall (l : list A) : Forall P l -> Forall P (sorted leb l).
Proof. apply Permutation_Forall, sorted_perm. Qed.

Lemma insert_sorted (x : A) (l : list A) :
  P x -> Forall P l ->
  StronglySorted (fun a b => leb a b = true) l ->
  StronglySorted (fun a b => leb a b = true) (insert leb x l).
Proof.
  intros Hx Hl. induction 1 as [|y t Ht IH Hy]; simpl.
  - repeat constructor.
  - inversion Hl as [|? ? HPy HPt]; subst.
    destruct (leb x y) eqn:Hxy.
    + constructor; [now constructor|].
      constructor; [assumption|].
      eapply Forall_impl; [|exact Hy]. intros z Hz. eauto.
    + constructor; [now apply IH|].
      assert (Hyx : leb y x = true)
        by (destruct (leb_total x y Hx HPy); congruence).
      apply Forall_forall. intros z Hz.
      apply (Permutation_in _ (Permutation_sym (insert_perm x t))) in Hz.
      destruct Hz as [<-|Hz]; [assumption|].
      rewrite Forall_forall in Hy. now apply Hy.
Qed.

Lemma sorted_sorted (l : list A) :
  Forall P l -> StronglySorted (fun a b => leb a b = true) (sorted leb l).
Proof.
  induction 1 as [|x t Hx Ht IH]; simpl; [constructor|].
  apply insert_sorted; [assumption|now apply sorted_Forall|assumption].
Qed.
End Ordered.
End SortFacts.

Section Unique.
Context {A : Type} (eqb : A -> A -> bool).
Hypothesis eqb_eq : forall a b, eqb a b = true <-> a = b.

Lemma unique_In (l : list A) (x : A) :
  In x (Series.unique eqb l) <-> In x l.
Proof.
  induction l as [|y t IH]; simpl; [tauto|].
  rewrite filter_In, IH. split.
  - tauto.
  - intros [->|Hin]; [now left|].
    destruct (eqb y x) eqn:E.
    + left. now apply eqb_eq.
    + right. split; [assumption|reflexivity].
Qed.

Lemma unique_NoDup (l : list A) : NoDup (Series.unique eqb l).
Proof.
  induction l as [|y t IH]; simpl; constructor.
  - rewrite filter_In. intros [_ Hne].
    assert (E : eqb y y = true) by now apply eqb_eq.
    rewrite E in Hne. discriminate.
  - now apply NoDup_filter.
Qed.
End Unique.

Lemma pair_eqb_eq (a b : string * Z) : pair_eqb a b = true <-> a = b.
Proof.
  destruct a as [c y], b as [c' y']. unfold pair_eqb. simpl.
  rewrite andb_true_iff, String.eqb_eq, Z.eqb_eq.
  split; [intros [-> ->]; reflexivity|intros E; inversion E; auto].
Qed.

Lemma year_keys_In (v : DataFrame) (y : Z) :
  In y (year_keys v) <-> exists r, In r v /\ year r = y.
Proof.
  unfold year_keys. rewrite sorted_In, (unique_In _ Z.eqb_eq), in_map_iff.
  split; intros [r Hr]; exists r; tauto.
Qed.

Lemma year_keys_NoDup (v : DataFrame) : NoDup (year_keys v).
Proof. apply sorted_NoDup, (unique_NoDup _ Z.eqb_eq). Qed.

Lemma country_keys_In (v : DataFrame) (c : string) :
  In c (country_keys v) <-> exists r, In r v /\ country r = c.
Proof.
  unfold country_keys.
  rewrite sorted_In, (unique_In _ String.eqb_eq), in_map_iff.
  split; intros [r Hr]; exists r; tauto.
Qed.

Lemma country_keys_NoDup (v : DataFrame) : NoDup (country_keys v).
Proof. apply sorted_NoDup, (unique_NoDup _ String.eqb_eq). Qed.

(** ** Group-by sums split the column sum *)

Section GroupSum.
Context {K : Type} (eqb : K -> K -> bool).
Hypothesis eqb_eq : forall a b, eqb a b = true <-> a = b.
Variables (key : row -> K) (f : row -> Z).

Let gsum := group_sum eqb key f.

Lemma sum_indicator (x : K) (a : Z) (keys : list K) :
  NoDup keys ->
  Series.sum (map (fun k => if eqb x k then a else 0) keys)
  = if existsb (eqb x) keys then a else 0.
Proof.
  induction 1 as [|k t Hk Hnd IH]; simpl; [reflexivity|].
  rewrite IH. destruct (eqb x k) eqn:E; simpl; [|reflexivity].
  apply eqb_eq in E. subst k.
  destruct (existsb (eqb x) t) eqn:Ex; [|lia].
  apply existsb_exists in Ex. destruct Ex as [z [Hz Ez]].
  apply eqb_eq in Ez. subst z. contradiction.
Qed.

Lemma group_sum_cons (r : row) (v : DataFrame) (k : K) :
  gsum (r :: v) k = (if eqb (key r) k then f r else 0) + gsum v k.
Proof.
  unfold gsum, group_sum. simpl. destruct (eqb (key r) k); simpl; lia.
Qed.

Lemma sum_map_add {B} (g h : B -> Z) (l : list B) :
  Series.sum (map (fun k => g k + h k) l)
  = Series.sum (map g l) + Series.sum (map h l).
Proof. induction l as [|x t IH]; simpl; [reflexivity|]. rewrite IH. lia. Qed.

Lemma sum_map_zero {B} (l : list B) :
  Series.sum (map (fun _ => 0) l) = 0.
Proof. induction l as [|x t IH]; simpl; [reflexivity|]. now rewrite IH. Qed.

(** Summing the per-group sums over distinct keys that cover the rows
    gives the sum of the column. *)
Lemma group_sum_total (keys : list K) (v : DataFrame) :
  NoDup keys ->
  (forall r, In r v -> In (key r) keys) ->
  Series.sum (map (gsum v) keys) = Series.sum (map f v).
Proof.
  intros Hnd. induction v as [|r t IH]; intros Hcov.
  - apply sum_map_zero.
  - rewrite (map_ext _ _ (group_sum_cons r t)), sum_map_add.
    rewrite sum_indicator by assumption.
    rewrite IH by (intros r' Hr'; apply Hcov; now right).
    assert (Hex : existsb (eqb (key r)) keys = true).
    { apply existsb_exists. exists (key r). split.
      - apply Hcov. now left.
      - now apply eqb_eq. }
    rewrite Hex. reflexivity.
Qed.
End GroupSum.

(** C10: the per-year sums of the sales-over-time table split the plain
    column sums: its [ev_sales] values add up to the Total EV Sales metric
    and its [petrol_car_sales] values add up to the Total Petrol Sales
    metric, for every filtered view. *)
Theorem sales_by_year_partitions_totals (v : DataFrame) :
  exists m,
    key_metrics v = Returned m
    /\ Series.sum (map s_ev_sales (sales_by_year v)) = total_ev m
    /\ Series.sum (map s_petrol_car_sales (sales_by_year v)) = total_petrol m.
Proof.
  eexists. split; [reflexivity|]. simpl.
  unfold sales_by_year. rewrite !map_map. simpl.
  split.
  - apply (group_sum_total Z.eqb Z.eqb_eq year ev_sales).
    + apply year_keys_NoDup.
    + intros r Hr. apply year_keys_In. now exists r.
  - apply (group_sum_total Z.eqb Z.eqb_eq year petrol_car_sales).
    + apply year_keys_NoDup.
    + intros r Hr. apply year_keys_In. now exists r.
Qed.

(** ** Chart 1: the groups of the sales-over-time table *)

Lemma Zleb_total (a b : Z) :
  True -> True -> (a <=? b) = true \/ (b <=? a) = true.
Proof. rewrite !Z.leb_le. lia. Qed.

Lemma Zleb_trans (a b c : Z) :
  (a <=? b) = true -> (b <=? c) = true -> (a <=? c) = true.
Proof. rewrite !Z.leb_le. lia. Qed.

Lemma year_keys_ascending (v : DataFrame) :
  StronglySorted Z.le (year_keys v).
Proof.
  unfold year_keys.
  assert (H : StronglySorted (fun a b => (a <=? b) = true)
                (sorted Z.leb (Series.unique Z.eqb (map year v)))).
  { apply (sorted_sorted Z.leb (fun _ => True) Zleb_total Zleb_trans).
    apply Forall_forall. trivial. }
  induction H as [|y t Ht IH Hy]; constructor; [assumption|].
  eapply Forall_impl; [|exact Hy]. intros z. apply Z.leb_le.
Qed.

Lemma sales_by_year_years (v : DataFrame) :
  map s_year (sales_by_year v) = year_keys v.
Proof.
  unfold sales_by_year. rewrite map_map. simpl. apply map_id.
Qed.

Lemma SumOf_sum (l : list Z) : SumOf Z.add 0 l (Series.sum l).
Proof. induction l as [|x t IH]; simpl; constructor. exact IH. Qed.

(** C7: the sales-over-time table has one entry per year that has a row
    in the view and none for any other year; the entries are in ascending
    order of year, and each holds the sums of [ev_sales] and of
    [petrol_car_sales] over the rows of its year: the column values of
    those rows added up.  On the two rows
    (US, 2020, ev 100, petrol 900, diesel 0) and
    (US, 2021, ev 300, petrol 700, diesel 0), whatever their other columns,
    the table is 2020: 100, 900 and 2021: 300, 700; with a second row of
    2020 (DE, ev 50, petrol 150) the entry of 2020 becomes 150, 1050. *)
Theorem sales_by_year_groups (v : DataFrame) :
  (forall y, In y (map s_year (sales_by_year v))
             <-> exists r, In r v /\ year r = y)
  /\ NoDup (map s_year (sales_by_year v))
  /\ StronglySorted Z.le (map s_year (sales_by_year v))
  /\ (forall g, In g (sales_by_year v) ->
        s_ev_sales g
        = Series.sum (map ev_sales (filter (fun r => year r =? s_year g) v))
        /\ s_petrol_car_sales g
           = Series.sum
               (map petrol_car_sales (filter (fun r => year r =? s_year g) v)))
  /\ (forall g, In g (sales_by_year v) ->
        SumOf Z.add 0
          (map ev_sales (filter (fun r => year r =? s_year g) v))
          (s_ev_sales g)
        /\ SumOf Z.add 0
             (map petrol_car_sales (filter (fun r => year r =? s_year g) v))
             (s_petrol_car_sales g))
  /\ (forall (reg1 reg2 : string) (sh1 gr1 gdp1 rng1 co1 : Q)
             (sh2 gr2 gdp2 rng2 co2 : Q) (cs1 cs2 : Z),
        sales_by_year
          [ mkRow "US" reg1 2020 100 900 0 sh1 gr1 gdp1 cs1 rng1 co1;
            mkRow "US" reg2 2021 300 700 0 sh2 gr2 gdp2 cs2 rng2 co2 ]
        = [ mkSales 2020 100 900; mkSales 2021 300 700 ])
  /\ (forall (reg1 reg2 reg3 : string) (sh1 gr1 gdp1 rng1 co1 : Q)
             (sh2 gr2 gdp2 rng2 co2 sh3 gr3 gdp3 rng3 co3 : Q)
             (cs1 cs2 cs3 d3 : Z),
        sales_by_year
          [ mkRow "US" reg1 2020 100 900 0 sh1 gr1 gdp1 cs1 rng1 co1;
            mkRow "US" reg2 2021 300 700 0 sh2 gr2 gdp2 cs2 rng2 co2;
            mkRow "DE" reg3 2020 50 150 d3 sh3 gr3 gdp3 cs3 rng3 co3 ]
        = [ mkSales 2020 150 1050; mkSales 2021 300 700 ]).
Proof.
  rewrite sales_by_year_years.
  split; [apply year_keys_In|].
  split; [apply year_keys_NoDup|].
  split; [apply year_keys_ascending|].
  split; [|split; [|split]].
  - intros g Hg. unfold sales_by_year in Hg. apply in_map_iff in Hg.
    destruct Hg as [y [<- _]]. simpl. split; reflexivity.
  - intros g Hg. unfold sales_by_year in Hg. apply in_map_iff in Hg.
    destruct Hg as [y [<- _]]. cbn [s_year s_ev_sales s_petrol_car_sales].
    split; apply SumOf_sum.
  - intros. reflexivity.
  - intros. reflexivity.
Qed.

(** ** Minimum and maximum of a column *)

Lemma fold_max_ge (t : list Z) (x : Z) :
  x <= fold_left Z.max t x /\ Forall (fun z => z <= fold_left Z.max t x) t.
Proof.
  revert x. induction t as [|y t IH]; intros x; simpl.
  - split; [lia|constructor].
  - destruct (IH (Z.max x y)) as [H1 H2]. split; [lia|].
    constructor; [lia|assumption].
Qed.

Lemma fold_max_In (t : list Z) (x : Z) : In (fold_left Z.max t x) (x :: t).
Proof.
  revert x. induction t as [|y t IH]; intros x; simpl; [now left|].
  destruct (IH (Z.max x y)) as [H|H]; [|right; right; exact H].
  rewrite <- H.
  destruct (Z.max_spec x y) as [[_ E]|[_ E]]; rewrite E; auto.
Qed.

Lemma fold_min_le (t : list Z) (x : Z) :
  fold_left Z.min t x <= x /\ Forall (fun z => fold_left Z.min t x <= z) t.
Proof.
  revert x. induction t as [|y t IH]; intros x; simpl.
  - split; [lia|constructor].
  - destruct (IH (Z.min x y)) as [H1 H2]. split; [lia|].
    constructor; [lia|assumption].
Qed.

Lemma max_spec (l : list Z) (m : Z) :
  Series.max l = Some m -> In m l /\ forall z, In z l -> z <= m.
Proof.
  destruct l as [|x t]; simpl; [discriminate|].
  intros E. injection E as <-. split; [apply fold_max_In|].
  destruct (fold_max_ge t x) as [H1 H2]. rewrite Forall_forall in H2.
  intros z [<-|Hz]; auto.
Qed.

Lemma min_spec (l : list Z) (m : Z) :
  Series.min l = Some m -> forall z, In z l -> m <= z.
Proof.
  destruct l as [|x t]; simpl; [discriminate|].
  intros E. injection E as <-.
  destruct (fold_min_le t x) as [H1 H2]. rewrite Forall_forall in H2.
  intros z [<-|Hz]; auto.
Qed.

Lemma filter_all {A} (p : A -> bool) (l : list A) :
  (forall x, In x l -> p x = true) -> filter p l = l.
Proof.
  induction l as [|x t IH]; simpl; intros H; [reflexivity|].
  rewrite (H x) by now left. f_equal. apply IH. intros y Hy. apply H.
  now right.
Qed.

Lemma country_options_In (df : DataFrame) (c : string) :
  In c (country_options df) <-> exists r, In r df /\ country r = c.
Proof. apply country_keys_In. Qed.

(** C5: with every option of the country selector chosen and the year
    slider left on its bounds, the minimum and the maximum year of the
    dataset, the filter returns the dataset itself, same rows in the same
    order.  The bounds exist for every dataset that has a row; of an empty
    dataset every filter is the empty dataset again. *)
Theorem filtered_df_full_selection (df : DataFrame) :
  match year_slider_bounds df with
  | Returned selected_years =>
      filtered_df df (country_options df) selected_years = df
  | Raised _ => df = []
  end
  /\ (forall sel yr, filtered_df [] sel yr = [])
  /\ (forall r t, exists lo hi,
        year_slider_bounds (r :: t) = Returned (lo, hi)
        /\ Series.min (map year (r :: t)) = Some lo
        /\ Series.max (map year (r :: t)) = Some hi).
Proof.
  split; [|split].
  - unfold year_slider_bounds.
    destruct (Series.min (map year df)) as [lo|] eqn:Hlo; simpl.
    + destruct (Series.max (map year df)) as [hi|] eqn:Hhi; simpl.
      * apply filter_all. intros r Hr. apply row_mask_selected.
        split; simpl.
        -- apply country_options_In. now exists r.
        -- split.
           ++ apply (min_spec _ _ Hlo). now apply in_map.
           ++ apply (max_spec _ _ Hhi). now apply in_map.
      * destruct df; [reflexivity|discriminate].
    + destruct df; [reflexivity|discriminate].
  - reflexivity.
  - intros r t. unfold year_slider_bounds. simpl. eauto.
Qed.

(** ** The latest year and the tables restricted to it *)

Lemma latest_year_spec (v : DataFrame) (y : Z) :
  latest_year v = Some y ->
  (exists r, In r v /\ year r = y) /\ (forall r, In r v -> year r <= y).
Proof.
  intros H. apply max_spec in H. destruct H as [Hin Hmax]. split.
  - apply in_map_iff in Hin. destruct Hin as [r [E Hr]]. now exists r.
  - intros r Hr. apply Hmax. now apply in_map.
Qed.

Lemma latest_year_defined (v : DataFrame) :
  v <> [] -> exists y, latest_year v = Some y.
Proof.
  destruct v as [|r t]; [contradiction|]. intros _.
  unfold latest_year. simpl. eauto.
Qed.

Lemma filter_nonempty {A} (p : A -> bool) (l : list A) (x : A) :
  In x l -> p x = true -> filter p l <> [].
Proof.
  intros Hin Hp E. assert (H : In x (filter p l)) by now apply filter_In.
  rewrite E in H. contradiction.
Qed.

(** C9: the latest year is one value per view, the maximum of its [year]
    column, and the three tables that depend on it are all cut on it: for
    a view with a row, the rows behind the vehicle-type distribution, the
    rows of the GDP scatter before deduplication and the rows of the range
    distribution are the same rows, those whose year is that maximum, and
    there is at least one. *)
Theorem latest_year_shared (v : DataFrame) (Hne : v <> []) :
  exists y,
    latest_year v = Some y
    /\ (exists r, In r v /\ year r = y)
    /\ (forall r, In r v -> year r <= y)
    /\ latest_data v = filter (eq_year y) v
    /\ map g_row (gdp_ev_data v) = drop_duplicates (filter (eq_year y) v)
    /\ range_data v = filter (eq_year y) v
    /\ filter (eq_year y) v <> []
    /\ vehicle_dist v
       = Returned
           [ ("EV"%string, Series.sum (map ev_sales (filter (eq_year y) v)));
             ("Petrol"%string,
               Series.sum (map petrol_car_sales (filter (eq_year y) v)));
             ("Diesel"%string,
               Series.sum (map diesel_car_sales (filter (eq_year y) v))) ].
Proof.
  destruct (latest_year_defined v Hne) as [y Hy]. exists y.
  destruct (latest_year_spec v y Hy) as [[r [Hr Hry]] Hmax].
  unfold latest_data, gdp_ev_data, range_data, vehicle_dist, latest_data.
  rewrite Hy. simpl. rewrite map_map. simpl. rewrite map_id.
  repeat split; eauto.
  apply (filter_nonempty _ _ r Hr). unfold eq_year. now apply Z.eqb_eq.
Qed.

Lemma latest_year_shared_witness :
  exists y,
    latest_year [ mkRow "US" "NA" 2020 100 900 0 (1#10) 0 0 5 0 0;
                  mkRow "US" "NA" 2021 300 700 0 (2#10) 0 0 9 0 0;
                  mkRow "DE" "EU" 2021 50 150 0 (1#4) 0 0 7 0 0 ]
    = Some y.
Proof.
  destruct (latest_year_shared
              [ mkRow "US" "NA" 2020 100 900 0 (1#10) 0 0 5 0 0;
                mkRow "US" "NA" 2021 300 700 0 (2#10) 0 0 9 0 0;
                mkRow "DE" "EU" 2021 50 150 0 (1#4) 0 0 7 0 0 ])
    as [y [Hy _]].
  - discriminate.
  - exists y. exact Hy.
Defined.

(** ** Deduplication by country *)

Lemma filter_filter_and {A} (p q : A -> bool) (l : list A) :
  filter p (filter q l) = filter (fun x => p x && q x) l.
Proof.
  induction l as [|x t IH]; simpl; [reflexivity|].
  destruct (q x); simpl; rewrite ?andb_true_r, ?andb_false_r.
  - destruct (p x); now rewrite IH.
  - assumption.
Qed.

Lemma drop_duplicates_from_countries (seen : list string) (l : DataFrame) :
  map country (drop_duplicates_from seen l)
  = filter (fun c => negb (isin c seen))
      (Series.unique String.eqb (map country l)).
Proof.
  revert seen. induction l as [|x t IH]; intros seen; simpl; [reflexivity|].
  destruct (isin (country x) seen) eqn:Hseen; simpl.
  - rewrite IH, filter_filter_and. apply filter_ext_in. intros c _.
    destruct (String.eqb (country x) c) eqn:E; simpl.
    + apply String.eqb_eq in E. subst c. rewrite Hseen. reflexivity.
    + now rewrite andb_true_r.
  - f_equal. rewrite IH, filter_filter_and. apply filter_ext_in.
    intros c _. unfold isin. simpl. rewrite (String.eqb_sym c).
    destruct (String.eqb (country x) c), (existsb (String.eqb c) seen);
      reflexivity.
Qed.

Lemma drop_duplicates_from_first (seen : list string) (l : DataFrame)
  (r : row) :
  In r (drop_duplicates_from seen l)
  <-> isin (country r) seen = false
      /\ find (eq_country (country r)) l = Some r.
Proof.
  revert seen. induction l as [|x t IH]; intros seen; simpl.
  - split; [contradiction|intros [_ H]; discriminate].
  - unfold eq_country at 1.
    destruct (isin (country x) seen) eqn:Hseen.
    + rewrite IH. destruct (String.eqb (country x) (country r)) eqn:E.
      * apply String.eqb_eq in E. rewrite <- E, Hseen.
        split; intros [H _]; discriminate.
      * reflexivity.
    + simpl. rewrite IH.
      destruct (String.eqb (country x) (country r)) eqn:E.
      * apply String.eqb_eq in E. split.
        -- intros [->|[H _]]; [now split|].
           unfold isin in H. simpl in H.
           rewrite <- E, String.eqb_refl in H. discriminate.
        -- intros [_ H]. left. now injection H.
      * split.
        -- intros [->|[H1 H2]].
           ++ rewrite String.eqb_refl in E. discriminate.
           ++ split; [|assumption]. unfold isin in *. simpl in H1.
              apply orb_false_iff in H1. tauto.
        -- intros [H1 H2]. right. split; [|assumption].
           unfold isin in *. simpl. rewrite H1, orb_false_r.
           rewrite String.eqb_sym. exact E.
Qed.

Lemma Subseq_drop_duplicates_from (seen : list string) (l : DataFrame) :
  Subseq (drop_duplicates_from seen l) l.
Proof.
  revert seen. induction l as [|x t IH]; intros seen; simpl; [constructor|].
  destruct (isin (country x) seen); auto.
Qed.

Lemma gdp_ev_data_rows (v : DataFrame) :
  map g_row (gdp_ev_data v) = drop_duplicates (latest_data v).
Proof.
  unfold gdp_ev_data, latest_data. rewrite map_map. simpl. apply map_id.
Qed.

Lemma latest_data_year (v : DataFrame) (r : row) :
  In r (latest_data v) -> In r v /\ latest_year v = Some (year r).
Proof.
  unfold latest_data. rewrite filter_In. intros [Hin Heq].
  split; [assumption|].
  destruct (latest_year v) as [y|]; simpl in Heq; [|discriminate].
  apply Z.eqb_eq in Heq. now subst.
Qed.

(** C6: the GDP scatter takes the rows of the view whose year is the
    latest year and keeps, of each country, the first such row in input
    order.  Its rows are rows of the view, unchanged and in input order; a
    row is in it exactly when it is the first latest-year row of its
    country; every country with a latest-year row has exactly one row in
    it; and the added column is the row's own market share times 100, so
    later rows of a country are dropped and contribute nothing. *)
Theorem gdp_ev_data_first_per_country (v : DataFrame) :
  Subseq (map g_row (gdp_ev_data v)) (latest_data v)
  /\ Subseq (latest_data v) v
  /\ (forall r, In r (latest_data v)
                <-> In r v /\ latest_year v = Some (year r))
  /\ (forall r, In r (map g_row (gdp_ev_data v))
                <-> find (eq_country (country r)) (latest_data v) = Some r)
  /\ map country (map g_row (gdp_ev_data v))
     = Series.unique String.eqb (map country (latest_data v))
  /\ NoDup (map country (map g_row (gdp_ev_data v)))
  /\ Forall (fun g => (ev_market_share_pct g
                       == ev_market_share (g_row g) * 100)%Q)
       (gdp_ev_data v).
Proof.
  rewrite gdp_ev_data_rows. unfold drop_duplicates.
  split; [apply Subseq_drop_duplicates_from|].
  split; [apply Subseq_filter|].
  split.
  { intros r. split; [apply latest_data_year|].
    intros [Hin Hy]. unfold latest_data. apply filter_In.
    split; [assumption|]. rewrite Hy. simpl. apply Z.eqb_refl. }
  split.
  { intros r. rewrite drop_duplicates_from_first. simpl. tauto. }
  assert (Hc : map country (drop_duplicates_from [] (latest_data v))
               = Series.unique String.eqb (map country (latest_data v))).
  { rewrite drop_duplicates_from_countries. simpl. apply filter_all.
    reflexivity. }
  split; [exact Hc|].
  split.
  { rewrite Hc. apply (unique_NoDup _ String.eqb_eq). }
  unfold gdp_ev_data. apply Forall_forall. intros g Hg.
  apply in_map_iff in Hg. destruct Hg as [r [<- _]].
  cbn [ev_market_share_pct g_row]. apply Qred_correct.
Qed.

(** ** Chart 10: the cells of the heatmap *)

Lemma has_duplicates_NoDup (ks : list (string * Z)) :
  NoDup ks -> has_duplicates ks = false.
Proof.
  induction 1 as [|k t Hk Hnd IH]; simpl; [reflexivity|].
  rewrite IH, orb_false_r.
  destruct (existsb (pair_eqb k) t) eqn:E; [|reflexivity].
  apply existsb_exists in E. destruct E as [k' [Hin E]].
  apply pair_eqb_eq in E. subst k'. contradiction.
Qed.

Lemma heat_keys_In (v : DataFrame) (k : string * Z) :
  In k (heat_keys v) <-> exists r, In r v /\ (country r, year r) = k.
Proof.
  unfold heat_keys. rewrite sorted_In, (unique_In _ pair_eqb_eq), in_map_iff.
  split; intros [r Hr]; exists r; tauto.
Qed.

Lemma heat_keys_NoDup (v : DataFrame) : NoDup (heat_keys v).
Proof. apply sorted_NoDup, (unique_NoDup _ pair_eqb_eq). Qed.

Lemma heatmap_data_keys (v : DataFrame) :
  map heat_key (heatmap_data v) = heat_keys v.
Proof.
  unfold heatmap_data. rewrite map_map.
  rewrite <- (map_id (heat_keys v)) at 2. apply map_ext.
  intros [c y]. reflexivity.
Qed.

Lemma find_heat_row (mk : string * Z -> heat_row) (keys : list (string * Z))
  (k : string * Z) :
  (forall k', heat_key (mk k') = k') ->
  find (fun h => pair_eqb (heat_key h) k) (map mk keys)
  = if existsb (fun k' => pair_eqb k' k) keys then Some (mk k) else None.
Proof.
  intros Hmk. induction keys as [|k' t IH]; simpl; [reflexivity|].
  rewrite Hmk. destruct (pair_eqb k' k) eqn:E; simpl; [|exact IH].
  apply pair_eqb_eq in E. now subst.
Qed.

Lemma filter_none {A} (p : A -> bool) (l : list A) :
  (forall x, In x l -> p x = false) -> filter p l = [].
Proof.
  induction l as [|x t IH]; simpl; intros H; [reflexivity|].
  rewrite (H x) by now left. apply IH. intros y Hy. apply H. now right.
Qed.

(** A cell holds the mean of the shares of the rows of its country and
    year; with no such row that is the mean of nothing, NaN. *)
Lemma cell_mean (v : DataFrame) (c : string) (y : Z) :
  cell (heatmap_data v) c y
  = Series.mean (map ev_market_share (filter (eq_pair (c, y)) v)).
Proof.
  unfold cell, heatmap_data.
  rewrite find_heat_row by (intros [c' y']; reflexivity).
  destruct (existsb _ (heat_keys v)) eqn:E; simpl; [reflexivity|].
  rewrite filter_none; [reflexivity|].
  intros r Hr. unfold eq_pair.
  destruct (pair_eqb (country r, year r) (c, y)) eqn:Ek; [|reflexivity].
  apply pair_eqb_eq in Ek.
  assert (Hex : existsb (fun k' => pair_eqb k' (c, y)) (heat_keys v) = true).
  { apply existsb_exists. exists (c, y). split.
    - apply heat_keys_In. now exists r.
    - now apply pair_eqb_eq. }
  congruence.
Qed.

Section Position.
Context {A : Type} (eqb : A -> A -> bool).
Hypothesis eqb_eq : forall a b, eqb a b = true <-> a = b.

Lemma position_In (x : A) (l : list A) :
  In x l -> exists i, position eqb x l = Some i /\ nth_error l i = Some x.
Proof.
  induction l as [|y t IH]; simpl; [contradiction|].
  intros Hin. destruct (eqb y x) eqn:E.
  - apply eqb_eq in E. subst. now exists O.
  - destruct Hin as [->|Hin].
    + assert (eqb x x = true) by now apply eqb_eq. congruence.
    + destruct (IH Hin) as [i [Hi Hn]]. exists (S i). rewrite Hi. now split.
Qed.

End Position.

Lemma heatmap_z_returns (v : DataFrame) :
  heatmap_z v
  = Returned
      (mkPivot
         (sorted String.leb
            (Series.unique String.eqb (map h_country (heatmap_data v))))
         (sorted Z.leb (Series.unique Z.eqb (map h_year (heatmap_data v))))
         (map (fun c =>
                 map (fun y => fmul (cell (heatmap_data v) c y) 100)
                   (sorted Z.leb
                      (Series.unique Z.eqb (map h_year (heatmap_data v)))))
            (sorted String.leb
               (Series.unique String.eqb (map h_country (heatmap_data v)))))).
Proof.
  unfold heatmap_z, heatmap_pivot, pivot.
  rewrite heatmap_data_keys, (has_duplicates_NoDup _ (heat_keys_NoDup v)).
  simpl. rewrite map_map. do 2 f_equal. apply map_ext. intros c.
  now rewrite map_map.
Qed.

Lemma heatmap_index_In (v : DataFrame) (c : string) :
  In c (sorted String.leb
          (Series.unique String.eqb (map h_country (heatmap_data v))))
  <-> exists r, In r v /\ country r = c.
Proof.
  rewrite sorted_In, (unique_In _ String.eqb_eq), in_map_iff. split.
  - intros [h [<- Hh]]. apply (in_map heat_key) in Hh.
    rewrite heatmap_data_keys in Hh. apply heat_keys_In in Hh.
    destruct Hh as [r [Hr E]]. exists r. split; [assumption|].
    unfold heat_key in E. now inversion E.
  - intros [r [Hr <-]].
    assert (Hk : In (country r, year r) (heat_keys v))
      by (apply heat_keys_In; now exists r).
    rewrite <- heatmap_data_keys in Hk. apply in_map_iff in Hk.
    destruct Hk as [h [E Hh]]. exists h. split; [|assumption].
    unfold heat_key in E. now inversion E.
Qed.

Lemma heatmap_columns_In (v : DataFrame) (y : Z) :
  In y (sorted Z.leb (Series.unique Z.eqb (map h_year (heatmap_data v))))
  <-> exists r, In r v /\ year r = y.
Proof.
  rewrite sorted_In, (unique_In _ Z.eqb_eq), in_map_iff. split.
  - intros [h [<- Hh]]. apply (in_map heat_key) in Hh.
    rewrite heatmap_data_keys in Hh. apply heat_keys_In in Hh.
    destruct Hh as [r [Hr E]]. exists r. split; [assumption|].
    unfold heat_key in E. now inversion E.
  - intros [r [Hr <-]].
    assert (Hk : In (country r, year r) (heat_keys v))
      by (apply heat_keys_In; now exists r).
    rewrite <- heatmap_data_keys in Hk. apply in_map_iff in Hk.
    destruct Hk as [h [E Hh]]. exists h. split; [|assumption].
    unfold heat_key in E. now inversion E.
Qed.

Lemma z_at_cell (idx : list string) (cols : list Z)
  (f : string -> Z -> fval) (c : string) (y : Z) :
  In c idx -> In y cols ->
  z_at (mkPivot idx cols (map (fun c => map (f c) cols) idx)) c y
  = Some (f c y).
Proof.
  intros Hc Hy. unfold z_at. simpl.
  destruct (position_In String.eqb String.eqb_eq c idx Hc) as [i [Hi Hni]].
  destruct (position_In Z.eqb Z.eqb_eq y cols Hy) as [j [Hj Hnj]].
  rewrite Hi, Hj.
  rewrite (nth_error_nth _ _ _ (map_nth_error (fun c => map (f c) cols) _ _ Hni)).
  now apply map_nth_error.
Qed.




(** ** Chart 2: rounding and the range of the share *)

Lemma rint_bounds (q : Q) (a b : Z) :
  (inject_Z a <= q)%Q -> (q <= inject_Z b)%Q -> a <= rint q <= b.
Proof.
  destruct q as [n d]. unfold Qle, rint. cbn [Qnum Qden inject_Z].
  intros Ha Hb.
  pose proof (Z.div_mod n (Z.pos d) ltac:(lia)) as Hdiv.
  pose proof (Z.mod_pos_bound n (Z.pos d) ltac:(lia)) as Hmod.
  set (D := Z.pos d) in *. assert (HD : 0 < D) by (unfold D; lia).
  set (f := n / D) in *. set (r := n mod D) in *.
  clearbody f r D. subst n. rewrite Z.mul_1_r in *.
  assert (Haf : a <= f).
  { apply Z.lt_succ_r, (Z.mul_lt_mono_pos_r D); [assumption|]. lia. }
  assert (Hfb : f <= b).
  { apply (Z.mul_le_mono_pos_r _ _ D); [assumption|]. lia. }
  assert (Hfb' : 0 < r -> f + 1 <= b).
  { intros Hr. apply Z.lt_succ_r, (Z.mul_lt_mono_pos_r D); [assumption|].
    lia. }
  destruct (Z.compare_spec (2 * r) D) as [E|E|E];
    [destruct (Z.even f)| |]; lia.
Qed.

Lemma sum_nonneg (l : list Z) : Forall (fun z => 0 <= z) l -> 0 <= Series.sum l.
Proof. induction 1; simpl; lia. Qed.

Lemma sum_map_nonneg (f : row -> Z) (l : DataFrame) :
  (forall r, In r l -> 0 <= f r) -> 0 <= Series.sum (map f l).
Proof.
  intros H. apply sum_nonneg, Forall_forall. intros z Hz.
  apply in_map_iff in Hz. destruct Hz as [r [<- Hr]]. now apply H.
Qed.

Lemma share_percent (ev total : Z) :
  0 <= ev <= total -> 0 < total ->
  percent (fround2 (fmul (fdiv ev total) 100)).
Proof.
  intros Hev Htot. unfold fdiv.
  destruct (total =? 0) eqn:E; [apply Z.eqb_eq in E; lia|].
  unfold fmul, fround2, percent.
  set (x := (Qred (Qred (inject_Z ev / inject_Z total) * 100) * 100)%Q).
  assert (Hx : (x == inject_Z ev / inject_Z total * 100 * 100)%Q).
  { unfold x. now rewrite !Qred_correct. }
  assert (Hpos : (0 < inject_Z total)%Q) by (rewrite <- (Zlt_Qlt 0); lia).
  assert (H0 : (0 <= inject_Z ev / inject_Z total)%Q).
  { apply Qle_shift_div_l; [assumption|]. rewrite Qmult_0_l.
    rewrite <- (Zle_Qle 0). lia. }
  assert (H1 : (inject_Z ev / inject_Z total <= 1)%Q).
  { apply Qle_shift_div_r; [assumption|]. rewrite Qmult_1_l.
    rewrite <- Zle_Qle. lia. }
  destruct (rint_bounds x 0 10000) as [Hlo Hhi].
  { rewrite Hx. change (inject_Z 0) with 0%Q. lra. }
  { rewrite Hx. change (inject_Z 10000) with 10000%Q. lra. }
  rewrite Qred_correct. rewrite Zle_Qle in Hlo, Hhi.
  change (inject_Z 0) with 0%Q in Hlo.
  change (inject_Z 10000) with 10000%Q in Hhi.
  split; [apply Qle_shift_div_l|apply Qle_shift_div_r]; lra.
Qed.

Lemma share_of_group_unguarded (v : DataFrame) (c : string) :
  m_total (share_of_group v c) = 0 ->
  m_ev_share (share_of_group v c)
  = match m_ev_sales (share_of_group v c) ?= 0 with
    | Eq => NaN
    | Gt => PInf
    | Lt => NInf
    end.
Proof.
  unfold share_of_group. cbn [m_total m_ev_share m_ev_sales].
  intros ->. unfold fdiv. simpl (0 =? 0).  cbv iota.
  destruct (Series.sum (map ev_sales (filter (eq_country c) v)) ?= 0);
    reflexivity.
Qed.

Lemma share_of_group_nonneg (v : DataFrame) (c : string) :
  nonneg_sales v ->
  (m_total (share_of_group v c) = 0
   /\ m_ev_sales (share_of_group v c) = 0
   /\ m_ev_share (share_of_group v c) = NaN)
  \/ (0 < m_total (share_of_group v c)
      /\ percent (m_ev_share (share_of_group v c))).
Proof.
  intros Hv. unfold nonneg_sales in Hv. rewrite Forall_forall in Hv.
  assert (Hev : 0 <= Series.sum (map ev_sales (filter (eq_country c) v))).
  { apply sum_map_nonneg. intros r Hr. apply filter_In in Hr.
    now apply Hv. }
  assert (Hpe : 0 <= Series.sum
                       (map petrol_car_sales (filter (eq_country c) v))).
  { apply sum_map_nonneg. intros r Hr. apply filter_In in Hr.
    now apply Hv. }
  assert (Hdi : 0 <= Series.sum
                       (map diesel_car_sales (filter (eq_country c) v))).
  { apply sum_map_nonneg. intros r Hr. apply filter_In in Hr.
    now apply Hv. }
  destruct (Z.eq_dec (m_total (share_of_group v c)) 0) as [E|E].
  - left. split; [assumption|].
    pose proof (share_of_group_unguarded v c E) as Hs.
    unfold share_of_group in *. cbn [m_total m_ev_share m_ev_sales] in *.
    assert (E0 : Series.sum (map ev_sales (filter (eq_country c) v)) = 0)
      by lia.
    split; [assumption|]. rewrite Hs, E0. reflexivity.
  - right. unfold share_of_group in *. cbn [m_total m_ev_share] in *.
    split; [lia|]. apply share_percent; lia.
Qed.

(** ** Chart 2: the sort and the first fifteen *)

Lemma fleb_total (x y : fval) :
  is_nan x = false -> is_nan y = false ->
  fleb x y = true \/ fleb y x = true.
Proof.
  destruct x as [a| | |], y as [b| | |]; simpl; try discriminate; auto.
  intros _ _. rewrite !Qle_bool_iff.
  destruct (Qlt_le_dec a b) as [H|H]; [left; now apply Qlt_le_weak|now right].
Qed.

Lemma fleb_trans (x y z : fval) :
  fleb x y = true -> fleb y z = true -> fleb x z = true.
Proof.
  destruct x as [a| | |], y as [b| | |], z as [c| | |]; simpl;
    try discriminate; auto.
  rewrite !Qle_bool_iff. apply Qle_trans.
Qed.

Lemma share_geb_total (a b : share_row) :
  share_nan a = false -> share_nan b = false ->
  share_geb a b = true \/ share_geb b a = true.
Proof.
  unfold share_nan, share_geb. intros Ha Hb.
  destruct (fleb_total (m_ev_share a) (m_ev_share b) Ha Hb); auto.
Qed.

Lemma share_geb_trans (a b c : share_row) :
  share_geb a b = true -> share_geb b c = true -> share_geb a c = true.
Proof. unfold share_geb. intros H1 H2. exact (fleb_trans _ _ _ H2 H1). Qed.

(** The stable sort is one of the sorts the default kind may produce. *)
Lemma sort_values_stable_spec (l : list share_row) :
  sort_values_desc l (sort_values_stable l).
Proof.
  unfold sort_values_stable. constructor; [apply sorted_perm|].
  apply (sorted_sorted share_geb (fun r => share_nan r = false)
           share_geb_total share_geb_trans).
  apply Forall_forall. intros r Hr. apply filter_In in Hr.
  destruct Hr as [_ Hr]. now apply negb_true_iff.
Qed.

Lemma filter_partition_perm {A} (p : A -> bool) (l : list A) :
  Permutation l (filter (fun x => negb (p x)) l ++ filter p l).
Proof.
  induction l as [|x t IH]; simpl; [constructor|].
  destruct (p x); simpl.
  - now apply Permutation_cons_app.
  - now apply perm_skip.
Qed.

Lemma sort_values_desc_perm (l s : list share_row) :
  sort_values_desc l s -> Permutation l s.
Proof.
  intros [l' s' Hp _]. rewrite (filter_partition_perm share_nan l') at 1.
  now apply Permutation_app_tail.
Qed.

Lemma In_firstn {A} (n : nat) (l : list A) (x : A) :
  In x (firstn n l) -> In x l.
Proof.
  revert l. induction n as [|n IH]; intros [|y t]; simpl; try tauto.
  intros [->|H]; auto.
Qed.



Lemma StronglySorted_weaken {A} (R R' : A -> A -> Prop) (P : A -> Prop)
  (l : list A) :
  (forall a b, P a -> P b -> R a b -> R' a b) ->
  Forall P l -> StronglySorted R l -> StronglySorted R' l.
Proof.
  intros HR HP H. induction H as [|x t Ht IH Hx]; constructor.
  - apply IH. now inversion HP.
  - inversion HP as [|? ? Px Pt]; subst.
    rewrite Forall_forall in *. intros y Hy. apply HR; auto.
Qed.

Lemma market_share_table_In (v : DataFrame) (g : share_row) :
  In g (market_share_table v)
  <-> exists c, g = share_of_group v c /\ exists r, In r v /\ country r = c.
Proof.
  unfold market_share_table. rewrite in_map_iff. split.
  - intros [c [<- Hc]]. exists c. split; [reflexivity|].
    now apply country_keys_In.
  - intros [c [-> Hc]]. exists c. split; [reflexivity|].
    now apply country_keys_In.
Qed.

Lemma market_share_table_nonneg (v : DataFrame) (g : share_row) :
  nonneg_sales v -> In g (market_share_table v) ->
  (share_nan g = true /\ m_ev_share g = NaN /\ m_total g = 0)
  \/ (share_nan g = false /\ percent (m_ev_share g) /\ 0 < m_total g).
Proof.
  intros Hv Hg. apply market_share_table_In in Hg.
  destruct Hg as [c [-> _]].
  destruct (share_of_group_nonneg v c Hv) as [[Ht [_ Hs]]|[Ht Hs]].
  - left. unfold share_nan. rewrite Hs. auto.
  - right. unfold share_nan.
    destruct (m_ev_share (share_of_group v c)); simpl in *; tauto.
Qed.

Lemma market_share_by_country_total (v : DataFrame) :
  market_share_by_country v (market_share_by_country_stable v).
Proof.
  exists (sort_values_stable (market_share_table v)).
  split; [apply sort_values_stable_spec|reflexivity].
Qed.

Lemma sort_values_desc_inv (l out : list share_row) :
  sort_values_desc l out ->
  exists s,
    Permutation (filter (fun r => negb (share_nan r)) l) s
    /\ StronglySorted (fun a b => share_geb a b = true) s
    /\ out = s ++ filter share_nan l.
Proof. intros [l' s Hp Hs]. now exists s. Qed.


Section StableSort.
Context {A : Type} (leb : A -> A -> bool) (p : A -> bool).
Hypothesis p_tied : forall x y, p x = true -> p y = true -> leb x y = true.


End StableSort.








(** The default sort leaves the order of equal shares open: for two
    countries with the same share, both orders meet its contract. *)
Lemma market_share_by_country_ties :
  market_share_by_country
    [ mkRow "AA" "EU" 2020 1 1 0 (1#2) 0 0 1 0 0;
      mkRow "BB" "EU" 2020 1 1 0 (1#2) 0 0 1 0 0 ]
    [ mkShare "AA" 1 1 0 2 (Fin 50); mkShare "BB" 1 1 0 2 (Fin 50) ]
  /\ market_share_by_country
       [ mkRow "AA" "EU" 2020 1 1 0 (1#2) 0 0 1 0 0;
         mkRow "BB" "EU" 2020 1 1 0 (1#2) 0 0 1 0 0 ]
       [ mkShare "BB" 1 1 0 2 (Fin 50); mkShare "AA" 1 1 0 2 (Fin 50) ].
Proof.
  split.
  - exact (market_share_by_country_total
             [ mkRow "AA" "EU" 2020 1 1 0 (1#2) 0 0 1 0 0;
               mkRow "BB" "EU" 2020 1 1 0 (1#2) 0 0 1 0 0 ]).
  - exists [ mkShare "BB" 1 1 0 2 (Fin 50); mkShare "AA" 1 1 0 2 (Fin 50) ].
    split; [|reflexivity].
    refine (sort_values_desc_intro
              [ mkShare "AA" 1 1 0 2 (Fin 50); mkShare "BB" 1 1 0 2 (Fin 50) ]
              [ mkShare "BB" 1 1 0 2 (Fin 50); mkShare "AA" 1 1 0 2 (Fin 50) ]
              _ _).
    + apply perm_swap.
    + repeat constructor.
Qed.

(** ** Chart 2: a country whose total is zero *)

Lemma sort_values_desc_In (l s : list share_row) (g : share_row) :
  sort_values_desc l s -> In g l -> In g s.
Proof.
  intros Hs. apply Permutation_in. now apply sort_values_desc_perm.
Qed.

(** C3: as the script has it, the division is not guarded.  For a
    country group whose total is zero the share is NaN when its EV sum is
    zero (the only case when no sales figure is negative) and an infinity
    of the sign of the EV sum otherwise, never a number; the group is not
    excluded: it is in the sorted table, and in the output whenever the
    view has at most 15 countries. *)
Theorem zero_total_share_unguarded (v : DataFrame) (g : share_row)
  (Hg : In g (market_share_table v)) (Ht : m_total g = 0) :
  m_ev_share g
  = match m_ev_sales g ?= 0 with Eq => NaN | Gt => PInf | Lt => NInf end
  /\ (forall q, m_ev_share g <> Fin q)
  /\ (nonneg_sales v -> m_ev_share g = NaN)
  /\ (forall s, sort_values_desc (market_share_table v) s -> In g s)
  /\ (forall out, (List.length (country_keys v) <= 15)%nat ->
        market_share_by_country v out -> In g out).
Proof.
  assert (Hshare : m_ev_share g
                   = match m_ev_sales g ?= 0 with
                     | Eq => NaN | Gt => PInf | Lt => NInf
                     end).
  { apply market_share_table_In in Hg. destruct Hg as [c [-> _]].
    now apply share_of_group_unguarded. }
  split; [exact Hshare|]. split; [|split; [|split]].
  - intros q. rewrite Hshare. destruct (m_ev_sales g ?= 0); discriminate.
  - intros Hv.
    destruct (market_share_table_nonneg v g Hv Hg) as [[_ [H _]]|[_ [_ H]]];
      [exact H|lia].
  - intros s Hs. exact (sort_values_desc_In _ _ g Hs Hg).
  - intros out Hlen [s [Hs ->]]. unfold head.
    rewrite firstn_all2; [exact (sort_values_desc_In _ _ g Hs Hg)|].
    rewrite <- (Permutation_length (sort_values_desc_perm _ _ Hs)).
    unfold market_share_table. now rewrite length_map.
Qed.

Lemma zero_total_share_unguarded_witness :
  m_ev_share (mkShare "ZZ" 0 0 0 0 NaN)
  = match m_ev_sales (mkShare "ZZ" 0 0 0 0 NaN) ?= 0 with
    | Eq => NaN | Gt => PInf | Lt => NInf
    end.
Proof.
  refine (proj1 (zero_total_share_unguarded
                   [ mkRow "DE" "EU" 2020 10 90 0 (1#10) 0 0 7 0 0;
                     mkRow "ZZ" "EU" 2020 0 0 0 0 0 0 0 0 0 ]
                   (mkShare "ZZ" 0 0 0 0 NaN) _ _)).
  - simpl. right. left. reflexivity.
  - reflexivity.
Defined.

(** C3 as stated fails: with one country that sells and one whose sales
    are all zero, the only table the script can produce lists the second
    with the share NaN; it is neither left out nor given the share 0. *)
Lemma market_share_zero_total_kept :
  market_share_by_country
    [ mkRow "DE" "EU" 2020 10 90 0 (1#10) 0 0 7 0 0;
      mkRow "ZZ" "EU" 2020 0 0 0 0 0 0 0 0 0 ]
    [ mkShare "DE" 10 90 0 100 (Fin 10); mkShare "ZZ" 0 0 0 0 NaN ]
  /\ (forall out,
        market_share_by_country
          [ mkRow "DE" "EU" 2020 10 90 0 (1#10) 0 0 7 0 0;
            mkRow "ZZ" "EU" 2020 0 0 0 0 0 0 0 0 0 ] out ->
        out = [ mkShare "DE" 10 90 0 100 (Fin 10);
                mkShare "ZZ" 0 0 0 0 NaN ]
        /\ In (mkShare "ZZ" 0 0 0 0 NaN) out)
  /\ m_total (mkShare "ZZ" 0 0 0 0 NaN) = 0
  /\ m_ev_share (mkShare "ZZ" 0 0 0 0 NaN) <> Fin 0.
Proof.
  split; [|split; [|split]].
  - exact (market_share_by_country_total
             [ mkRow "DE" "EU" 2020 10 90 0 (1#10) 0 0 7 0 0;
               mkRow "ZZ" "EU" 2020 0 0 0 0 0 0 0 0 0 ]).
  - intros out [s0 [Hs ->]]. apply sort_values_desc_inv in Hs.
    destruct Hs as [s [Hp [_ ->]]].
    change (Permutation [ mkShare "DE" 10 90 0 100 (Fin 10) ] s) in Hp.
    apply Permutation_length_1_inv in Hp. subst s.
    split; [reflexivity|]. right. left. reflexivity.
  - reflexivity.
  - discriminate.
Qed.

(** ** The empty view *)

Lemma filtered_df_no_country (df : DataFrame) (yr : Z * Z) :
  filtered_df df [] yr = [].
Proof. unfold filtered_df. apply filter_none. reflexivity. Qed.

Lemma market_share_by_country_empty (out : list share_row) :
  market_share_by_country [] out <-> out = [].
Proof.
  split.
  - intros [s [Hs ->]]. apply sort_values_desc_inv in Hs.
    destruct Hs as [s' [Hp [_ ->]]]. apply Permutation_nil in Hp.
    now subst.
  - intros ->. exact (market_share_by_country_total []).
Qed.

Lemma sort_values_year_desc_empty (out : DataFrame) :
  sort_values_year_desc [] out <-> out = [].
Proof.
  split.
  - intros H. inversion H as [l s Hp _ El Es]. now apply Permutation_nil.
  - intros ->. constructor; constructor.
Qed.

(** C2: as the script has it, nothing raises on an empty view, and
    [NoDataError] does not exist in the script.  With no country selected
    the view is empty; on an empty view the latest year is NaN, the
    vehicle-type distribution returns three sums of 0, Total EV Sales and
    Total Petrol Sales return 0, the mean market share and the maximum of
    charging stations return NaN, the heatmap reshapes to an empty matrix,
    and every other table of the script is empty: sales over time, market
    share by country, the latest-year rows, sales by region, the growth
    scatter, the GDP scatter, the emissions and the charging-stations
    trends, the range data and the raw data table. *)
Theorem empty_view_returns (df : DataFrame) (yr : Z * Z) :
  filtered_df df [] yr = []
  /\ latest_year (filtered_df df [] yr) = None
  /\ vehicle_dist (filtered_df df [] yr)
     = Returned [ ("EV"%string, 0); ("Petrol"%string, 0);
                  ("Diesel"%string, 0) ]
  /\ key_metrics (filtered_df df [] yr) = Returned (mkMetrics 0 0 NaN None)
  /\ sales_by_year (filtered_df df [] yr) = []
  /\ (forall out,
        market_share_by_country (filtered_df df [] yr) out <-> out = [])
  /\ gdp_ev_data (filtered_df df [] yr) = []
  /\ range_data (filtered_df df [] yr) = []
  /\ heatmap_z (filtered_df df [] yr) = Returned (mkPivot [] [] [])
  /\ latest_data (filtered_df df [] yr) = []
  /\ regional_sales (filtered_df df [] yr) = []
  /\ growth_data (filtered_df df [] yr) = []
  /\ emissions_data (filtered_df df [] yr) = []
  /\ charging_data (filtered_df df [] yr) = []
  /\ heatmap_data (filtered_df df [] yr) = []
  /\ heatmap_pivot (filtered_df df [] yr) = Returned (mkPivot [] [] [])
  /\ (forall out,
        sort_values_year_desc (filtered_df df [] yr) out <-> out = []).
Proof.
  rewrite filtered_df_no_country.
  repeat match goal with |- _ /\ _ => split end; try reflexivity.
  - apply market_share_by_country_empty.
  - apply sort_values_year_desc_empty.
Qed.

(** C2 as stated fails: with a dataset of one row and no country
    selected, the vehicle-type distribution and the four metrics return
    values instead of raising [NoDataError]. *)
Lemma empty_view_no_NoDataError :
  filtered_df [ mkRow "US" "NA" 2020 100 900 0 (1#10) 0 0 5 0 0 ] []
    (2020, 2020) = []
  /\ vehicle_dist
       (filtered_df [ mkRow "US" "NA" 2020 100 900 0 (1#10) 0 0 5 0 0 ] []
          (2020, 2020))
     = Returned [ ("EV"%string, 0); ("Petrol"%string, 0);
                  ("Diesel"%string, 0) ]
  /\ vehicle_dist
       (filtered_df [ mkRow "US" "NA" 2020 100 900 0 (1#10) 0 0 5 0 0 ] []
          (2020, 2020))
     <> Raised NoDataError
  /\ key_metrics
       (filtered_df [ mkRow "US" "NA" 2020 100 900 0 (1#10) 0 0 5 0 0 ] []
          (2020, 2020))
     = Returned (mkMetrics 0 0 NaN None)
  /\ key_metrics
       (filtered_df [ mkRow "US" "NA" 2020 100 900 0 (1#10) 0 0 5 0 0 ] []
          (2020, 2020))
     <> Raised NoDataError.
Proof. repeat split; discriminate. Qed.


(** * Further properties of the script *)

(** ** The filter as an operation *)

Lemma isin_inter (c : string) (s1 s2 : list string) :
  isin c (filter (fun c => isin c s2) s1) = isin c s1 && isin c s2.
Proof.
  apply eq_iff_eq_true.
  rewrite andb_true_iff, !isin_In, filter_In, isin_In. tauto.
Qed.

Lemma row_mask_inter (s1 s2 : list string) (y1 y2 : Z * Z) (r : row) :
  row_mask s2 y2 r && row_mask s1 y1 r
  = row_mask (filter (fun c => isin c s2) s1)
      (Z.max (fst y1) (fst y2), Z.min (snd y1) (snd y2)) r.
Proof.
  apply eq_iff_eq_true.
  rewrite andb_true_iff, !row_mask_selected. unfold selected. simpl.
  rewrite filter_In, isin_In. split.
  - intros [[H1 H2] [H3 H4]]. repeat split; try assumption; lia.
  - intros [[H1 H2] H3]. repeat split; try assumption; lia.
Qed.

(** X1: filtering a filtered view is filtering once, with the countries
    that are in both selections and the intersection of the two year
    ranges; so the filter is idempotent and two filters commute. *)
Theorem filtered_df_compose (df : DataFrame) (s1 s2 : list string)
  (y1 y2 : Z * Z) :
  filtered_df (filtered_df df s1 y1) s2 y2
  = filtered_df df (filter (fun c => isin c s2) s1)
      (Z.max (fst y1) (fst y2), Z.min (snd y1) (snd y2))
  /\ filtered_df (filtered_df df s1 y1) s1 y1 = filtered_df df s1 y1
  /\ filtered_df (filtered_df df s1 y1) s2 y2
     = filtered_df (filtered_df df s2 y2) s1 y1.
Proof.
  unfold filtered_df. rewrite !filter_filter_and. split; [|split].
  - apply filter_ext. intros r. apply row_mask_inter.
  - apply filter_ext. intros r. now rewrite andb_diag.
  - apply filter_ext. intros r. apply andb_comm.
Qed.

(** X2: a year range whose upper bound is below its lower bound selects
    no row. *)
Theorem filtered_df_inverted_range (df : DataFrame) (sel : list string)
  (lo hi : Z) (H : hi < lo) :
  filtered_df df sel (lo, hi) = [].
Proof.
  unfold filtered_df. apply filter_none. intros r _. unfold row_mask. simpl.
  destruct (lo <=? year r) eqn:E1; [|now rewrite andb_false_r].
  destruct (year r <=? hi) eqn:E2; [|now rewrite andb_false_r].
  apply Z.leb_le in E1, E2. lia.
Qed.

Lemma filtered_df_inverted_range_witness :
  filtered_df [ mkRow "US" "NA" 2020 100 900 0 (1#10) 0 0 5 0 0 ]
    [ "US"%string ] (2021, 2019) = [].
Proof.
  apply (filtered_df_inverted_range
           [ mkRow "US" "NA" 2020 100 900 0 (1#10) 0 0 5 0 0 ]
           [ "US"%string ] 2021 2019).
  lia.
Defined.

(** X3: selected countries that the dataset does not have change
    nothing: the view is the one of the selection cut down to the
    countries of the dataset. *)
Theorem filtered_df_unknown_countries (df : DataFrame) (sel : list string)
  (yr : Z * Z) :
  filtered_df df sel yr
  = filtered_df df (filter (fun c => isin c (country_options df)) sel) yr.
Proof.
  unfold filtered_df. apply filter_ext_in. intros r Hr. unfold row_mask.
  rewrite isin_inter.
  assert (Hopt : isin (country r) (country_options df) = true).
  { apply isin_In, country_options_In. now exists r. }
  now rewrite Hopt, andb_true_r.
Qed.

Lemma Subseq_length {A} (s l : list A) :
  Subseq s l -> (List.length s <= List.length l)%nat.
Proof. induction 1; simpl; lia. Qed.

(** X4: widening the selection never removes a row: with more countries
    selected and a wider year range, the old view is an order-preserving
    sub-sequence of the new one, which has at least as many data points. *)
Theorem filtered_df_monotone (df : DataFrame) (sel sel' : list string)
  (lo hi lo' hi' : Z)
  (Hsel : forall c, In c sel -> In c sel')
  (Hlo : lo' <= lo) (Hhi : hi <= hi') :
  Subseq (filtered_df df sel (lo, hi)) (filtered_df df sel' (lo', hi'))
  /\ (List.length (filtered_df df sel (lo, hi))
      <= List.length (filtered_df df sel' (lo', hi')))%nat.
Proof.
  assert (H : Subseq (filtered_df df sel (lo, hi))
                (filtered_df df sel' (lo', hi'))).
  { unfold filtered_df at 2. apply Subseq_filter_greatest.
    - apply Subseq_filter.
    - apply Forall_forall. intros r Hr. apply filter_In in Hr.
      destruct Hr as [_ Hr]. apply row_mask_selected in Hr.
      apply row_mask_selected. destruct Hr as [Hc Hy]. simpl in Hy.
      split; simpl; [now apply Hsel|lia]. }
  split; [exact H|now apply Subseq_length].
Qed.

Lemma filtered_df_monotone_witness :
  Subseq
    (filtered_df [ mkRow "US" "NA" 2020 100 900 0 (1#10) 0 0 5 0 0;
                   mkRow "DE" "EU" 2021 50 150 0 (1#4) 0 0 7 0 0 ]
       [ "US"%string ] (2020, 2020))
    (filtered_df [ mkRow "US" "NA" 2020 100 900 0 (1#10) 0 0 5 0 0;
                   mkRow "DE" "EU" 2021 50 150 0 (1#4) 0 0 7 0 0 ]
       [ "DE"%string; "US"%string ] (2019, 2021)).
Proof.
  refine (proj1 (filtered_df_monotone
                   [ mkRow "US" "NA" 2020 100 900 0 (1#10) 0 0 5 0 0;
                     mkRow "DE" "EU" 2021 50 150 0 (1#4) 0 0 7 0 0 ]
                   [ "US"%string ] [ "DE"%string; "US"%string ]
                   2020 2020 2019 2021 _ _ _)).
  - intros c [<-|[]]. simpl. auto.
  - lia.
  - lia.
Defined.

(** ** The order of strings *)

Lemma ascii_compare_refl (a : Ascii.ascii) : Ascii.compare a a = Eq.
Proof. unfold Ascii.compare. apply N.compare_refl. Qed.

Lemma ascii_compare_lt_trans (a b c : Ascii.ascii) :
  Ascii.compare a b = Lt -> Ascii.compare b c = Lt -> Ascii.compare a c = Lt.
Proof. unfold Ascii.compare. rewrite !N.compare_lt_iff. lia. Qed.

Lemma string_compare_lt_trans (s1 s2 s3 : string) :
  String.compare s1 s2 = Lt -> String.compare s2 s3 = Lt ->
  String.compare s1 s3 = Lt.
Proof.
  revert s2 s3. induction s1 as [|a s1 IH]; intros [|b s2] [|c s3]; simpl;
    try discriminate; auto.
  destruct (Ascii.compare a b) eqn:Eab; try discriminate;
    destruct (Ascii.compare b c) eqn:Ebc; try discriminate; intros H1 H2.
  - apply Ascii.compare_eq_iff in Eab, Ebc. subst.
    rewrite ascii_compare_refl. eauto.
  - apply Ascii.compare_eq_iff in Eab. subst. now rewrite Ebc.
  - apply Ascii.compare_eq_iff in Ebc. subst. now rewrite Eab.
  - now rewrite (ascii_compare_lt_trans a b c Eab Ebc).
Qed.

Lemma string_compare_refl (s : string) : String.compare s s = Eq.
Proof.
  induction s as [|a s IH]; simpl; [reflexivity|].
  now rewrite ascii_compare_refl.
Qed.

Lemma string_leb_trans (s1 s2 s3 : string) :
  String.leb s1 s2 = true -> String.leb s2 s3 = true ->
  String.leb s1 s3 = true.
Proof.
  unfold String.leb.
  destruct (String.compare s1 s2) eqn:E12; try discriminate;
    destruct (String.compare s2 s3) eqn:E23; try discriminate; intros _ _.
  - apply String.compare_eq_iff in E12, E23. subst.
    now rewrite string_compare_refl.
  - apply String.compare_eq_iff in E12. subst. now rewrite E23.
  - apply String.compare_eq_iff in E23. subst. now rewrite E12.
  - now rewrite (string_compare_lt_trans s1 s2 s3 E12 E23).
Qed.

Lemma string_leb_neq_ltb (s1 s2 : string) :
  String.leb s1 s2 = true -> s1 <> s2 -> String.ltb s1 s2 = true.
Proof.
  unfold String.leb, String.ltb.
  destruct (String.compare s1 s2) eqn:E; try discriminate; auto.
  intros _ Hne. apply String.compare_eq_iff in E. contradiction.
Qed.

Lemma sorted_strings (l : list string) :
  StronglySorted (fun a b => String.leb a b = true) (sorted String.leb l).
Proof.
  apply (sorted_sorted String.leb (fun _ => True)).
  - intros a b _ _. apply String.leb_total.
  - apply string_leb_trans.
  - apply Forall_forall. trivial.
Qed.

Section SortedUnique.
Context {A : Type} (R : A -> A -> Prop).
Hypothesis R_antisym : forall a b, R a b -> R b a -> a = b.

Lemma StronglySorted_head_least (x : A) (t : list A) (y : A) :
  StronglySorted R (x :: t) -> In y (x :: t) -> y = x \/ R x y.
Proof.
  intros H [<-|Hy]; [now left|]. right.
  apply StronglySorted_inv in H. destruct H as [_ H].
  rewrite Forall_forall in H. now apply H.
Qed.

(** Two ordered lists without repeats that hold the same values are the
    same list. *)
Lemma sorted_unique (l1 l2 : list A) :
  StronglySorted R l1 -> StronglySorted R l2 ->
  NoDup l1 -> NoDup l2 ->
  (forall x, In x l1 <-> In x l2) -> l1 = l2.
Proof.
  revert l2. induction l1 as [|x1 t1 IH]; intros [|x2 t2] S1 S2 N1 N2 Hin.
  - reflexivity.
  - exfalso. apply (proj2 (Hin x2)). now left.
  - exfalso. apply (proj1 (Hin x1)). now left.
  - assert (E : x1 = x2).
    { destruct (StronglySorted_head_least x1 t1 x2 S1) as [E|H12];
        [apply Hin; now left|now symmetry|].
      destruct (StronglySorted_head_least x2 t2 x1 S2) as [E|H21];
        [apply Hin; now left|assumption|].
      now apply R_antisym. }
    subst x2. f_equal.
    inversion N1 as [|? ? Hx1 N1']; inversion N2 as [|? ? Hx2 N2']; subst.
    apply IH; try assumption.
    + now apply StronglySorted_inv in S1.
    + now apply StronglySorted_inv in S2.
    + intros y. split; intros Hy.
      * destruct (proj1 (Hin y) (or_intror Hy)) as [<-|H]; [contradiction|].
        exact H.
      * destruct (proj2 (Hin y) (or_intror Hy)) as [<-|H]; [contradiction|].
        exact H.
Qed.
End SortedUnique.

Lemma StronglySorted_app_inv {A} (R : A -> A -> Prop) (l1 l2 : list A) :
  StronglySorted R (l1 ++ l2) ->
  forall x y, In x l1 -> In y l2 -> R x y.
Proof.
  induction l1 as [|a t IH]; simpl; intros H x y Hx Hy; [contradiction|].
  apply StronglySorted_inv in H. destruct H as [Ht Ha].
  destruct Hx as [<-|Hx].
  - rewrite Forall_forall in Ha. apply Ha, in_or_app. now right.
  - now apply (IH Ht).
Qed.

Lemma StronglySorted_strict (l : list string) :
  StronglySorted (fun a b => String.leb a b = true) l -> NoDup l ->
  StronglySorted (fun a b => String.ltb a b = true) l.
Proof.
  induction 1 as [|x t Ht IH Hx]; intros Hnd; constructor.
  - apply IH. now inversion Hnd.
  - inversion Hnd as [|? ? Hnx _]; subst. rewrite Forall_forall in *.
    intros y Hy. apply string_leb_neq_ltb; [now apply Hx|].
    intros ->. contradiction.
Qed.

(** X5: the options of the country selector are the countries of the
    dataset, each once, in strictly ascending order of their characters. *)
Theorem country_options_sorted (df : DataFrame) :
  (forall c, In c (country_options df) <-> exists r, In r df /\ country r = c)
  /\ NoDup (country_options df)
  /\ StronglySorted (fun a b => String.ltb a b = true) (country_options df).
Proof.
  split; [apply country_options_In|].
  assert (Hnd : NoDup (country_options df)) by apply country_keys_NoDup.
  split; [exact Hnd|].
  apply StronglySorted_strict; [apply sorted_strings|exact Hnd].
Qed.

(** ** The year slider and the default selection *)

Lemma fold_min_In (t : list Z) (x : Z) : In (fold_left Z.min t x) (x :: t).
Proof.
  revert x. induction t as [|y t IH]; intros x; simpl; [now left|].
  destruct (IH (Z.min x y)) as [H|H]; [|right; right; exact H].
  rewrite <- H.
  destruct (Z.min_spec x y) as [[_ E]|[_ E]]; rewrite E; auto.
Qed.

Lemma min_In (l : list Z) (m : Z) : Series.min l = Some m -> In m l.
Proof.
  destruct l as [|x t]; simpl; [discriminate|].
  intros E. injection E as <-. apply fold_min_In.
Qed.

Lemma year_slider_bounds_range (df : DataFrame) (lo hi : Z) :
  year_slider_bounds df = Returned (lo, hi) ->
  lo <= hi
  /\ (exists r, In r df /\ year r = lo)
  /\ (exists r, In r df /\ year r = hi)
  /\ (forall r, In r df -> lo <= year r <= hi).
Proof.
  unfold year_slider_bounds.
  destruct (Series.min (map year df)) as [lo'|] eqn:Hlo; simpl;
    [|discriminate].
  destruct (Series.max (map year df)) as [hi'|] eqn:Hhi; simpl;
    [|discriminate].
  intros E. injection E as <- <-.
  pose proof (min_In _ _ Hlo) as Hlin.
  pose proof (min_spec _ _ Hlo) as Hmin.
  destruct (max_spec _ _ Hhi) as [Hhin Hmax].
  split; [now apply Hmax|].
  apply in_map_iff in Hlin, Hhin.
  destruct Hlin as [rl [El Hrl]], Hhin as [rh [Eh Hrh]].
  split; [now exists rl|]. split; [now exists rh|].
  intros r Hr. split; [apply Hmin|apply Hmax]; now apply in_map.
Qed.

(** X6: the bounds of the year slider exist exactly when the dataset has
    a row; for an empty dataset the script stops with [ValueError].  When
    they exist, the lower bound is at most the upper bound, each is the
    year of some row, and every row's year lies between them. *)
Theorem year_slider_bounds_spec (df : DataFrame) :
  (year_slider_bounds df = Raised ValueError <-> df = [])
  /\ (forall lo hi, year_slider_bounds df = Returned (lo, hi) ->
        lo <= hi
        /\ (exists r, In r df /\ year r = lo)
        /\ (exists r, In r df /\ year r = hi)
        /\ (forall r, In r df -> lo <= year r <= hi)).
Proof.
  split.
  - destruct df as [|r t]; [split; reflexivity|].
    split; [|discriminate]. unfold year_slider_bounds. simpl. discriminate.
  - apply year_slider_bounds_range.
Qed.

Lemma filtered_df_all (df : DataFrame) (sel : list string) (yr : Z * Z) :
  (forall r, In r df -> selected sel yr r) -> filtered_df df sel yr = df.
Proof.
  intros H. unfold filtered_df. apply filter_all. intros r Hr.
  now apply row_mask_selected, H.
Qed.

(** X7: the default selection of the country selector holds at most
    five countries of the dataset, each once, and they are the first in
    the order of the options: every option left out comes after every
    default.  When the dataset has at most five countries the default is
    all of them, and with the slider on its bounds the first view is the
    whole dataset. *)
Theorem default_countries_spec (df : DataFrame) :
  (List.length (default_countries df) <= 5)%nat
  /\ NoDup (default_countries df)
  /\ (forall c, In c (default_countries df) ->
        exists r, In r df /\ country r = c)
  /\ (forall c d, In c (default_countries df) ->
        In d (country_options df) -> ~ In d (default_countries df) ->
        String.ltb c d = true)
  /\ ((List.length (country_options df) <= 5)%nat ->
        default_countries df = country_options df
        /\ forall yr, year_slider_bounds df = Returned yr ->
             filtered_df df (default_countries df) yr = df).
Proof.
  unfold default_countries.
  split; [apply firstn_le_length|].
  split.
  { pose proof (country_keys_NoDup df) as Hnd. unfold country_options.
    fold (country_keys df).
    rewrite <- (firstn_skipn 5 (country_keys df)) in Hnd.
    now apply NoDup_app_remove_r in Hnd. }
  split.
  { intros c Hc. apply In_firstn in Hc. now apply country_options_In. }
  split.
  { intros c d Hc Hd Hnd.
    rewrite <- (firstn_skipn 5 (country_options df)) in Hd.
    apply in_app_or in Hd. destruct Hd as [Hd|Hd]; [contradiction|].
    apply string_leb_neq_ltb.
    - pose proof (sorted_strings
                    (Series.unique String.eqb (map country df))) as Hs.
      fold (country_options df) in Hs.
      rewrite <- (firstn_skipn 5 (country_options df)) in Hs.
      exact (StronglySorted_app_inv _ _ _ Hs c d Hc Hd).
    - intros ->. contradiction. }
  intros Hlen. rewrite firstn_all2 by assumption.
  split; [reflexivity|].
  intros [lo hi] Hb.
  destruct (year_slider_bounds_range df lo hi Hb) as [_ [_ [_ Hall]]].
  apply filtered_df_all. intros r Hr. split; simpl.
  - apply country_options_In. now exists r.
  - now apply Hall.
Qed.

(** ** Chart 4: sales by year and region *)

Lemma yr_eqb_eq (a b : Z * string) : yr_eqb a b = true <-> a = b.
Proof.
  destruct a as [y c], b as [y' c']. unfold yr_eqb. simpl.
  rewrite andb_true_iff, String.eqb_eq, Z.eqb_eq.
  split; [intros [-> ->]; reflexivity|intros E; inversion E; auto].
Qed.

Lemma regional_keys_In (v : DataFrame) (k : Z * string) :
  In k (regional_keys v) <-> exists r, In r v /\ year_region r = k.
Proof.
  unfold regional_keys. rewrite sorted_In, (unique_In _ yr_eqb_eq), in_map_iff.
  split; intros [r Hr]; exists r; tauto.
Qed.

Lemma regional_keys_NoDup (v : DataFrame) : NoDup (regional_keys v).
Proof. apply sorted_NoDup, (unique_NoDup _ yr_eqb_eq). Qed.

Lemma filter_map_comm {A B} (f : A -> B) (p : B -> bool) (l : list A) :
  filter p (map f l) = map f (filter (fun x => p (f x)) l).
Proof.
  induction l as [|x t IH]; simpl; [reflexivity|].
  destruct (p (f x)); simpl; now rewrite IH.
Qed.

Lemma regional_group_in_year (v : DataFrame) (k : Z * string) :
  group_sum yr_eqb year_region ev_sales (filter (eq_year (fst k)) v) k
  = group_sum yr_eqb year_region ev_sales v k.
Proof.
  unfold group_sum. rewrite filter_filter_and. do 2 f_equal.
  apply filter_ext. intros r.
  destruct (yr_eqb (year_region r) k) eqn:E; [|reflexivity].
  apply yr_eqb_eq in E. subst k. unfold eq_year. simpl.
  now rewrite Z.eqb_refl.
Qed.

(** X8: the table of EV sales by year and region has an entry exactly
    for the pairs of year and region that have a row.  It refines the
    sales-over-time table: for each year of that table, the entries of the
    year add up to its EV sales; and all entries add up to the sum of
    [ev_sales] over the view. *)
Theorem regional_sales_refines_sales_by_year (v : DataFrame) :
  (forall y reg,
     (exists e, In (mkRegional y reg e) (regional_sales v))
     <-> exists r, In r v /\ year r = y /\ region r = reg)
  /\ (forall s, In s (sales_by_year v) ->
        Series.sum
          (map r_ev_sales
             (filter (fun g => r_year g =? s_year s) (regional_sales v)))
        = s_ev_sales s)
  /\ Series.sum (map r_ev_sales (regional_sales v))
     = Series.sum (map ev_sales v).
Proof.
  split; [|split].
  - intros y reg. split.
    + intros [e He]. unfold regional_sales in He. apply in_map_iff in He.
      destruct He as [k [E Hk]]. apply regional_keys_In in Hk.
      destruct Hk as [r [Hr <-]]. exists r. simpl in E.
      inversion E. auto.
    + intros [r [Hr [<- <-]]].
      exists (group_sum yr_eqb year_region ev_sales v (year_region r)).
      unfold regional_sales. apply in_map_iff. exists (year_region r).
      split; [reflexivity|]. apply regional_keys_In. now exists r.
  - intros s Hs. unfold sales_by_year in Hs. apply in_map_iff in Hs.
    destruct Hs as [y [<- _]]. cbn [s_year s_ev_sales].
    unfold regional_sales. rewrite filter_map_comm, map_map.
    cbn [r_year r_ev_sales].
    rewrite <- (group_sum_total yr_eqb yr_eqb_eq year_region ev_sales
                  (filter (fun k => fst k =? y) (regional_keys v))
                  (filter (eq_year y) v)).
    + f_equal. apply map_ext_in. intros k Hk. apply filter_In in Hk.
      destruct Hk as [_ Hk]. apply Z.eqb_eq in Hk. subst y.
      symmetry. apply regional_group_in_year.
    + apply NoDup_filter, regional_keys_NoDup.
    + intros r Hr. apply filter_In in Hr. destruct Hr as [Hr Hy].
      apply filter_In. split; [apply regional_keys_In; now exists r|].
      exact Hy.
  - unfold regional_sales. rewrite map_map. cbn [r_ev_sales].
    apply (group_sum_total yr_eqb yr_eqb_eq year_region ev_sales).
    + apply regional_keys_NoDup.
    + intros r Hr. apply regional_keys_In. now exists r.
Qed.

(** ** Chart 3 against chart 1 *)

Lemma ascending_max_last (l : list Z) (y : Z) :
  StronglySorted Z.le l -> NoDup l -> In y l ->
  (forall z, In z l -> z <= y) -> exists l', l = l' ++ [y].
Proof.
  induction 1 as [|x t Ht IH Hx]; intros Hnd Hy Hmax; [contradiction|].
  inversion Hnd as [|? ? Hxt Hndt]; subst.
  destruct t as [|x' t'].
  - destruct Hy as [<-|[]]. now exists [].
  - assert (Hyt : In y (x' :: t')).
    { destruct Hy as [<-|Hy]; [|exact Hy]. exfalso. apply Hxt.
      rewrite Forall_forall in Hx.
      assert (x' = x).
      { apply Z.le_antisymm; [apply Hmax; right; now left|].
        apply Hx. now left. }
      subst. now left. }
    destruct (IH Hndt Hyt) as [l' El].
    { intros z Hz. apply Hmax. now right. }
    exists (x :: l'). now rewrite El.
Qed.

(** X9: for a view with a row, the vehicle-type distribution repeats the
    last point of the sales-over-time chart: its EV and Petrol figures
    are the EV and petrol sums of the last entry of that table, the entry
    of the latest year. *)
Theorem vehicle_dist_is_last_sales_point (v : DataFrame) (Hne : v <> []) :
  exists y ev petrol diesel earlier,
    latest_year v = Some y
    /\ vehicle_dist v
       = Returned [ ("EV"%string, ev); ("Petrol"%string, petrol);
                    ("Diesel"%string, diesel) ]
    /\ sales_by_year v = earlier ++ [ mkSales y ev petrol ]
    /\ Forall (fun s => s_year s < y) earlier.
Proof.
  destruct (latest_year_defined v Hne) as [y Hy].
  destruct (latest_year_spec v y Hy) as [Hex Hmax].
  destruct (ascending_max_last (year_keys v) y) as [l' El].
  { apply year_keys_ascending. }
  { apply year_keys_NoDup. }
  { now apply year_keys_In. }
  { intros z Hz. apply year_keys_In in Hz. destruct Hz as [r [Hr <-]].
    now apply Hmax. }
  exists y,
    (Series.sum (map ev_sales (filter (eq_year y) v))),
    (Series.sum (map petrol_car_sales (filter (eq_year y) v))),
    (Series.sum (map diesel_car_sales (filter (eq_year y) v))),
    (map (fun y =>
            mkSales y (Series.sum (map ev_sales (filter (eq_year y) v)))
              (Series.sum (map petrol_car_sales (filter (eq_year y) v))))
         l').
  split; [exact Hy|]. split.
  { unfold vehicle_dist, latest_data. rewrite Hy. reflexivity. }
  split.
  { unfold sales_by_year. rewrite El, map_app. reflexivity. }
  apply Forall_forall. intros s Hs. apply in_map_iff in Hs.
  destruct Hs as [z [<- Hz]]. simpl.
  pose proof (year_keys_NoDup v) as Hnd. rewrite El in Hnd.
  assert (Hzy : z <= y).
  { assert (Hzk : In z (year_keys v)) by (rewrite El; apply in_or_app; auto).
    apply year_keys_In in Hzk. destruct Hzk as [r [Hr <-]]. now apply Hmax. }
  assert (z <> y).
  { intros ->. apply NoDup_remove_2 in Hnd. apply Hnd.
    rewrite app_nil_r. exact Hz. }
  lia.
Qed.

Lemma vehicle_dist_is_last_sales_point_witness :
  exists y ev petrol diesel earlier,
    latest_year [ mkRow "US" "NA" 2020 100 900 0 (1#10) 0 0 5 0 0;
                  mkRow "US" "NA" 2021 300 700 0 (2#10) 0 0 9 0 0;
                  mkRow "DE" "EU" 2021 50 150 0 (1#4) 0 0 7 0 0 ]
    = Some y
    /\ vehicle_dist [ mkRow "US" "NA" 2020 100 900 0 (1#10) 0 0 5 0 0;
                      mkRow "US" "NA" 2021 300 700 0 (2#10) 0 0 9 0 0;
                      mkRow "DE" "EU" 2021 50 150 0 (1#4) 0 0 7 0 0 ]
       = Returned [ ("EV"%string, ev); ("Petrol"%string, petrol);
                    ("Diesel"%string, diesel) ]
    /\ sales_by_year [ mkRow "US" "NA" 2020 100 900 0 (1#10) 0 0 5 0 0;
                       mkRow "US" "NA" 2021 300 700 0 (2#10) 0 0 9 0 0;
                       mkRow "DE" "EU" 2021 50 150 0 (1#4) 0 0 7 0 0 ]
       = earlier ++ [ mkSales y ev petrol ]
    /\ Forall (fun s => s_year s < y) earlier.
Proof.
  apply (vehicle_dist_is_last_sales_point
           [ mkRow "US" "NA" 2020 100 900 0 (1#10) 0 0 5 0 0;
             mkRow "US" "NA" 2021 300 700 0 (2#10) 0 0 9 0 0;
             mkRow "DE" "EU" 2021 50 150 0 (1#4) 0 0 7 0 0 ]).
  discriminate.
Defined.

(** ** Chart 2: the groups of the market-share table *)

(** X10: before it is sorted, the market-share table has one row per
    country of the view, in the order of the country options; each
    row's total is the sum of its three sales figures; and over all rows
    the EV and petrol figures add up to the Total EV Sales and Total
    Petrol Sales metrics. *)
Theorem market_share_table_totals (v : DataFrame) :
  map m_country (market_share_table v) = country_keys v
  /\ Forall (fun g => m_total g
                      = m_ev_sales g + m_petrol_car_sales g
                        + m_diesel_car_sales g)
       (market_share_table v)
  /\ exists m,
       key_metrics v = Returned m
       /\ Series.sum (map m_ev_sales (market_share_table v)) = total_ev m
       /\ Series.sum (map m_petrol_car_sales (market_share_table v))
          = total_petrol m
       /\ Series.sum (map m_total (market_share_table v))
          = total_ev m + total_petrol m
            + Series.sum (map diesel_car_sales v).
Proof.
  assert (Hev : Series.sum (map m_ev_sales (market_share_table v))
                = Series.sum (map ev_sales v)).
  { unfold market_share_table. rewrite map_map. cbn [share_of_group m_ev_sales].
    apply (group_sum_total String.eqb String.eqb_eq country ev_sales).
    - apply country_keys_NoDup.
    - intros r Hr. apply country_keys_In. now exists r. }
  assert (Hpe : Series.sum (map m_petrol_car_sales (market_share_table v))
                = Series.sum (map petrol_car_sales v)).
  { unfold market_share_table. rewrite map_map.
    cbn [share_of_group m_petrol_car_sales].
    apply (group_sum_total String.eqb String.eqb_eq country petrol_car_sales).
    - apply country_keys_NoDup.
    - intros r Hr. apply country_keys_In. now exists r. }
  assert (Hdi : Series.sum (map m_diesel_car_sales (market_share_table v))
                = Series.sum (map diesel_car_sales v)).
  { unfold market_share_table. rewrite map_map.
    cbn [share_of_group m_diesel_car_sales].
    apply (group_sum_total String.eqb String.eqb_eq country diesel_car_sales).
    - apply country_keys_NoDup.
    - intros r Hr. apply country_keys_In. now exists r. }
  assert (Htot : Forall (fun g => m_total g
                                  = m_ev_sales g + m_petrol_car_sales g
                                    + m_diesel_car_sales g)
                   (market_share_table v)).
  { apply Forall_forall. intros g Hg. apply market_share_table_In in Hg.
    destruct Hg as [c [-> _]]. reflexivity. }
  split.
  { unfold market_share_table. rewrite map_map. apply map_id. }
  split; [exact Htot|].
  eexists. split; [reflexivity|]. cbn [total_ev total_petrol].
  split; [exact Hev|]. split; [exact Hpe|].
  rewrite <- Hev, <- Hpe, <- Hdi.
  clear Hev Hpe Hdi. induction Htot as [|g t Hg Ht IH]; simpl; lia.
Qed.

(** ** Means: charts 7 and 8, and the key metrics *)

Lemma qsum_bounds (l : list Q) (a b : Q) :
  (forall x, In x l -> (a <= x <= b)%Q) ->
  (inject_Z (Z.of_nat (List.length l)) * a <= Series.qsum l)%Q
  /\ (Series.qsum l <= inject_Z (Z.of_nat (List.length l)) * b)%Q.
Proof.
  induction l as [|x t IH]; intros H.
  - change (inject_Z (Z.of_nat (@List.length Q []))) with 0%Q.
    change (Series.qsum []) with 0%Q. split; lra.
  - destruct IH as [IH1 IH2]; [intros y Hy; apply H; now right|].
    destruct (H x (or_introl eq_refl)) as [Hx1 Hx2].
    cbn [List.length Series.qsum fold_right].
    fold (Series.qsum t).
    rewrite Nat2Z.inj_succ. unfold Z.succ. rewrite inject_Z_plus.
    set (N := inject_Z (Z.of_nat (List.length t))) in *. clearbody N.
    set (S := Series.qsum t) in *. clearbody S.
    change (inject_Z 1) with 1%Q. split; lra.
Qed.

Lemma mean_between (l : list Q) (a b : Q) :
  l <> [] -> (forall x, In x l -> (a <= x <= b)%Q) ->
  exists q, Series.mean l = Fin q /\ (a <= q <= b)%Q.
Proof.
  intros Hne H. destruct (qsum_bounds l a b H) as [H1 H2].
  destruct l as [|x t]; [contradiction|].
  unfold Series.mean. eexists. split; [reflexivity|].
  rewrite Qred_correct.
  assert (Hpos : (0 < inject_Z (Z.of_nat (List.length (x :: t))))%Q).
  { rewrite <- (Zlt_Qlt 0). simpl. lia. }
  split.
  - apply Qle_shift_div_l; [assumption|]. now rewrite Qmult_comm.
  - apply Qle_shift_div_r; [assumption|]. now rewrite Qmult_comm.
Qed.

Lemma mean_defined (l : list Q) :
  l <> [] -> exists q, Series.mean l = Fin q.
Proof. destruct l; [contradiction|]. intros _. simpl. eauto. Qed.

Lemma year_group_nonempty (v : DataFrame) (y : Z) :
  In y (year_keys v) -> filter (eq_year y) v <> [].
Proof.
  intros Hy. apply year_keys_In in Hy. destruct Hy as [r [Hr <-]].
  apply (filter_nonempty _ _ r Hr). unfold eq_year. apply Z.eqb_refl.
Qed.

Lemma map_nonempty {A B} (f : A -> B) (l : list A) : l <> [] -> map f l <> [].
Proof. destruct l; [contradiction|discriminate]. Qed.

(** X12: the emissions and the charging-stations trends have one entry
    per year of the view, in ascending order, and every entry is a number,
    never NaN.  Each yearly average of charging stations lies between the
    smallest value of the view and the largest, which is the Max Charging
    Stations metric. *)
Theorem yearly_means_defined (v : DataFrame) :
  map a_year (emissions_data v) = year_keys v
  /\ map a_year (charging_data v) = year_keys v
  /\ Forall (fun a => exists q, a_value a = Fin q) (emissions_data v)
  /\ exists m,
       key_metrics v = Returned m
       /\ Forall (fun a => exists q lo hi,
                    a_value a = Fin q
                    /\ Series.min (map charging_stations v) = Some lo
                    /\ total_charging m = Some hi
                    /\ (inject_Z lo <= q <= inject_Z hi)%Q)
            (charging_data v).
Proof.
  split; [unfold emissions_data; rewrite map_map; apply map_id|].
  split; [unfold charging_data; rewrite map_map; apply map_id|].
  split.
  { apply Forall_forall. intros a Ha. unfold emissions_data in Ha.
    apply in_map_iff in Ha. destruct Ha as [y [<- Hy]]. simpl.
    apply mean_defined, map_nonempty. now apply year_group_nonempty. }
  eexists. split; [reflexivity|]. cbn [total_charging].
  apply Forall_forall. intros a Ha. unfold charging_data in Ha.
  apply in_map_iff in Ha. destruct Ha as [y [<- Hy]]. simpl.
  assert (Hne : v <> []).
  { apply year_keys_In in Hy. destruct Hy as [r [Hr _]].
    intros ->. contradiction. }
  destruct v as [|r0 t0] eqn:Ev; [contradiction|]. rewrite <- Ev in *.
  assert (Hmin : exists lo, Series.min (map charging_stations v) = Some lo)
    by (rewrite Ev; simpl; eauto).
  assert (Hmax : exists hi, Series.max (map charging_stations v) = Some hi)
    by (rewrite Ev; simpl; eauto).
  destruct Hmin as [lo Hlo], Hmax as [hi Hhi].
  destruct (mean_between
              (map (fun r => inject_Z (charging_stations r))
                 (filter (eq_year y) v))
              (inject_Z lo) (inject_Z hi)) as [q [Hq Hb]].
  { apply map_nonempty. now apply year_group_nonempty. }
  { intros x Hx. apply in_map_iff in Hx. destruct Hx as [r [<- Hr]].
    apply filter_In in Hr. destruct Hr as [Hr _].
    rewrite <- !Zle_Qle. split.
    - apply (min_spec _ _ Hlo). now apply in_map.
    - apply (max_spec _ _ Hhi). now apply in_map. }
  exists q, lo, hi. auto.
Qed.

(** X13: on a view with a row the key metrics are numbers: Max Charging
    Stations is the value of some row and no row has more; the average
    market share is not NaN, and it is a percentage from 0 to 100 when
    every row's share is a fraction from 0 to 1. *)
Theorem key_metrics_nonempty (v : DataFrame) (Hne : v <> []) :
  exists m c q,
    key_metrics v = Returned m
    /\ total_charging m = Some c
    /\ (exists r, In r v /\ charging_stations r = c)
    /\ (forall r, In r v -> charging_stations r <= c)
    /\ avg_ev_share m = Fin q
    /\ ((forall r, In r v -> (0 <= ev_market_share r <= 1)%Q) ->
        (0 <= q <= 100)%Q).
Proof.
  assert (Hmax : exists c, Series.max (map charging_stations v) = Some c)
    by (destruct v; [contradiction|simpl; eauto]).
  destruct Hmax as [c Hc]. destruct (max_spec _ _ Hc) as [Hin Hub].
  destruct (mean_defined (map ev_market_share v) (map_nonempty _ _ Hne))
    as [mq Hmq].
  eexists. exists c. eexists.
  split; [reflexivity|]. cbn [total_charging avg_ev_share].
  split; [exact Hc|]. split.
  { apply in_map_iff in Hin. destruct Hin as [r [E Hr]]. now exists r. }
  split.
  { intros r Hr. apply Hub. now apply in_map. }
  rewrite Hmq. split; [reflexivity|].
  intros Hshare.
  destruct (mean_between (map ev_market_share v) 0 1) as [q' [Hq' Hb]].
  { now apply map_nonempty. }
  { intros x Hx. apply in_map_iff in Hx. destruct Hx as [r [<- Hr]].
    now apply Hshare. }
  rewrite Hmq in Hq'. injection Hq' as <-.
  rewrite Qred_correct. lra.
Qed.

Lemma key_metrics_nonempty_witness :
  exists m c q,
    key_metrics [ mkRow "US" "NA" 2020 100 900 0 (1#10) 0 0 5 0 0;
                  mkRow "DE" "EU" 2021 50 150 0 (1#4) 0 0 7 0 0 ]
    = Returned m
    /\ total_charging m = Some c
    /\ (exists r,
          In r [ mkRow "US" "NA" 2020 100 900 0 (1#10) 0 0 5 0 0;
                 mkRow "DE" "EU" 2021 50 150 0 (1#4) 0 0 7 0 0 ]
          /\ charging_stations r = c)
    /\ (forall r,
          In r [ mkRow "US" "NA" 2020 100 900 0 (1#10) 0 0 5 0 0;
                 mkRow "DE" "EU" 2021 50 150 0 (1#4) 0 0 7 0 0 ] ->
          charging_stations r <= c)
    /\ avg_ev_share m = Fin q
    /\ ((forall r,
           In r [ mkRow "US" "NA" 2020 100 900 0 (1#10) 0 0 5 0 0;
                  mkRow "DE" "EU" 2021 50 150 0 (1#4) 0 0 7 0 0 ] ->
           (0 <= ev_market_share r <= 1)%Q) ->
        (0 <= q <= 100)%Q).
Proof.
  apply (key_metrics_nonempty
           [ mkRow "US" "NA" 2020 100 900 0 (1#10) 0 0 5 0 0;
             mkRow "DE" "EU" 2021 50 150 0 (1#4) 0 0 7 0 0 ]).
  discriminate.
Defined.

(** ** Chart 10: the shape of the heatmap *)

Lemma sorted_years (l : list Z) :
  StronglySorted (fun a b => (a <=? b) = true) (sorted Z.leb l).
Proof.
  apply (sorted_sorted Z.leb (fun _ => True) Zleb_total Zleb_trans).
  apply Forall_forall. trivial.
Qed.

Lemma heatmap_index_keys (v : DataFrame) :
  sorted String.leb (Series.unique String.eqb (map h_country (heatmap_data v)))
  = country_keys v.
Proof.
  apply (sorted_unique (fun a b => String.leb a b = true) String.leb_antisym).
  - apply sorted_strings.
  - apply sorted_strings.
  - apply sorted_NoDup, (unique_NoDup _ String.eqb_eq).
  - apply country_keys_NoDup.
  - intros c. now rewrite heatmap_index_In, country_keys_In.
Qed.

Lemma heatmap_columns_keys (v : DataFrame) :
  sorted Z.leb (Series.unique Z.eqb (map h_year (heatmap_data v)))
  = year_keys v.
Proof.
  apply (sorted_unique (fun a b => (a <=? b) = true)).
  - intros a b Hab Hba. apply Z.leb_le in Hab, Hba. lia.
  - apply sorted_years.
  - apply sorted_years.
  - apply sorted_NoDup, (unique_NoDup _ Z.eqb_eq).
  - apply year_keys_NoDup.
  - intros y. now rewrite heatmap_columns_In, year_keys_In.
Qed.

Lemma z_at_row (v : DataFrame) (r : row) :
  In r v ->
  exists p,
    heatmap_z v = Returned p
    /\ z_at p (country r) (year r)
       = Some (fmul (Series.mean
                       (map ev_market_share
                          (filter (eq_pair (country r, year r)) v))) 100)
    /\ filter (eq_pair (country r, year r)) v <> [].
Proof.
  intros Hr. eexists. split; [apply heatmap_z_returns|]. split.
  - rewrite (z_at_cell _ _ (fun c y => fmul (cell (heatmap_data v) c y) 100)).
    + now rewrite cell_mean.
    + apply heatmap_index_In. now exists r.
    + apply heatmap_columns_In. now exists r.
  - apply (filter_nonempty _ _ r Hr). unfold eq_pair. now apply pair_eqb_eq.
Qed.

(** X14: the heatmap is a full rectangle: its rows are the countries of
    the view in the order of the market-share groups, its columns the years
    of the view in the order of the sales-over-time table, every row of
    values has one cell per column; and no row and no column is blank
    throughout: each country has a number in some year and each year has a
    number for some country. *)
Theorem heatmap_shape (v : DataFrame) :
  exists p,
    heatmap_z v = Returned p
    /\ p_index p = country_keys v
    /\ p_columns p = year_keys v
    /\ List.length (p_values p) = List.length (country_keys v)
    /\ Forall (fun cells => List.length cells = List.length (year_keys v))
         (p_values p)
    /\ (forall c, In c (p_index p) -> exists y q, z_at p c y = Some (Fin q))
    /\ (forall y, In y (p_columns p) -> exists c q, z_at p c y = Some (Fin q)).
Proof.
  eexists. split; [apply heatmap_z_returns|]. cbn [p_index p_columns p_values].
  split; [apply heatmap_index_keys|].
  split; [apply heatmap_columns_keys|].
  split; [now rewrite length_map, heatmap_index_keys|].
  split.
  { apply Forall_forall. intros cells Hc. apply in_map_iff in Hc.
    destruct Hc as [c [<- _]]. now rewrite length_map, heatmap_columns_keys. }
  assert (Hrow : forall r, In r v ->
            exists q,
              z_at
                (mkPivot
                   (sorted String.leb
                      (Series.unique String.eqb
                         (map h_country (heatmap_data v))))
                   (sorted Z.leb
                      (Series.unique Z.eqb (map h_year (heatmap_data v))))
                   (map (fun c =>
                           map (fun y =>
                                  fmul (cell (heatmap_data v) c y) 100)
                             (sorted Z.leb
                                (Series.unique Z.eqb
                                   (map h_year (heatmap_data v)))))
                      (sorted String.leb
                         (Series.unique String.eqb
                            (map h_country (heatmap_data v))))))
                (country r) (year r)
              = Some (Fin q)).
  { intros r Hr. destruct (z_at_row v r Hr) as [p [Hp [Hz Hne]]].
    rewrite heatmap_z_returns in Hp. injection Hp as <-. rewrite Hz.
    destruct (mean_defined _ (map_nonempty ev_market_share _ Hne)) as [q Hq].
    rewrite Hq. simpl. eauto. }
  split.
  - intros c Hc. apply heatmap_index_In in Hc. destruct Hc as [r [Hr <-]].
    exists (year r). now apply Hrow.
  - intros y Hy. apply heatmap_columns_In in Hy. destruct Hy as [r [Hr <-]].
    exists (country r). now apply Hrow.
Qed.




(** ** Chart 2: which countries the chart shows *)

Lemma NoDup_firstn {A} (n : nat) (l : list A) : NoDup l -> NoDup (firstn n l).
Proof.
  intros H. rewrite <- (firstn_skipn n l) in H.
  now apply NoDup_app_remove_r in H.
Qed.

(** X16: whatever order the sort leaves, the market-share chart shows
    min(15, number of countries of the view) bars, each for a different
    country, each a row of the unsorted table; with at most 15 countries
    every country of the view has its bar. *)
Theorem market_share_by_country_shape (v : DataFrame) (out : list share_row)
  (H : market_share_by_country v out) :
  List.length out = Nat.min 15 (List.length (country_keys v))
  /\ NoDup (map m_country out)
  /\ (forall g, In g out -> In g (market_share_table v))
  /\ ((List.length (country_keys v) <= 15)%nat ->
        Permutation (market_share_table v) out).
Proof.
  destruct H as [s [Hs ->]]. unfold head.
  pose proof (sort_values_desc_perm _ _ Hs) as Hp.
  assert (Hlen : List.length s = List.length (country_keys v)).
  { rewrite <- (Permutation_length Hp). unfold market_share_table.
    apply length_map. }
  split; [now rewrite length_firstn, Hlen|].
  split.
  { rewrite <- firstn_map. apply NoDup_firstn.
    apply (Permutation_NoDup (Permutation_map m_country Hp)).
    unfold market_share_table. rewrite map_map. simpl. rewrite map_id.
    apply country_keys_NoDup. }
  split.
  { intros g Hg. apply In_firstn in Hg.
    exact (Permutation_in g (Permutation_sym Hp) Hg). }
  intros Hle. rewrite firstn_all2 by lia. exact Hp.
Qed.

Lemma market_share_by_country_shape_witness :
  List.length
    [ mkShare "DE" 50 150 0 200 (Fin 25);
      mkShare "US" 400 1600 0 2000 (Fin 20) ]
  = Nat.min 15
      (List.length
         (country_keys
            [ mkRow "US" "NA" 2020 100 900 0 (1#10) 0 0 5 0 0;
              mkRow "US" "NA" 2021 300 700 0 (2#10) 0 0 9 0 0;
              mkRow "DE" "EU" 2021 50 150 0 (1#4) 0 0 7 0 0 ])).
Proof.
  refine (proj1 (market_share_by_country_shape
                   [ mkRow "US" "NA" 2020 100 900 0 (1#10) 0 0 5 0 0;
                     mkRow "US" "NA" 2021 300 700 0 (2#10) 0 0 9 0 0;
                     mkRow "DE" "EU" 2021 50 150 0 (1#4) 0 0 7 0 0 ]
                   [ mkShare "DE" 50 150 0 200 (Fin 25);
                     mkShare "US" 400 1600 0 2000 (Fin 20) ] _)).
  exact (market_share_by_country_total
           [ mkRow "US" "NA" 2020 100 900 0 (1#10) 0 0 5 0 0;
             mkRow "US" "NA" 2021 300 700 0 (2#10) 0 0 9 0 0;
             mkRow "DE" "EU" 2021 50 150 0 (1#4) 0 0 7 0 0 ]).
Defined.

(** ** The raw data table *)

Lemma year_geb_total (a b : row) :
  True -> True -> year_geb a b = true \/ year_geb b a = true.
Proof. unfold year_geb. rewrite !Z.leb_le. lia. Qed.

Lemma year_geb_trans (a b c : row) :
  year_geb a b = true -> year_geb b c = true -> year_geb a c = true.
Proof. unfold year_geb. rewrite !Z.leb_le. lia. Qed.

Lemma sort_values_year_stable_spec (l : DataFrame) :
  sort_values_year_desc l (sort_values_year_stable l).
Proof.
  unfold sort_values_year_stable. constructor; [apply sorted_perm|].
  apply (StronglySorted_weaken (fun a b => year_geb a b = true) _
           (fun _ => True)).
  - intros a b _ _ Hab. unfold year_geb in Hab. now apply Z.leb_le.
  - apply Forall_forall. trivial.
  - apply (sorted_sorted year_geb (fun _ => True) year_geb_total
             year_geb_trans).
    apply Forall_forall. trivial.
Qed.

(** X17: the raw data table lists the rows of the view, all of them and
    no other, latest year first: its first row is of the latest year of
    the view, and an empty view gives an empty table. *)
Theorem raw_data_latest_first (v out : DataFrame)
  (H : sort_values_year_desc v out) :
  Permutation v out
  /\ match out with
     | [] => v = []
     | r :: _ => latest_year v = Some (year r)
     end.
Proof.
  destruct H as [l s Hp Hs]. split; [exact Hp|].
  destruct s as [|r t].
  - now apply Permutation_sym, Permutation_nil in Hp.
  - assert (Hne : l <> []).
    { intros ->. apply Permutation_nil in Hp. discriminate. }
    destruct (latest_year_defined l Hne) as [y Hy]. rewrite Hy. f_equal.
    destruct (latest_year_spec l y Hy) as [[x [Hx <-]] Hmax].
    apply Z.le_antisymm.
    + apply (Permutation_in x Hp) in Hx. destruct Hx as [<-|Hx]; [lia|].
      apply StronglySorted_inv in Hs. destruct Hs as [_ Hs].
      rewrite Forall_forall in Hs. now apply Hs.
    + apply Hmax. apply (Permutation_in r (Permutation_sym Hp)). now left.
Qed.

Lemma raw_data_latest_first_witness :
  Permutation
    [ mkRow "US" "NA" 2020 100 900 0 (1#10) 0 0 5 0 0;
      mkRow "DE" "EU" 2021 50 150 0 (1#4) 0 0 7 0 0 ]
    [ mkRow "DE" "EU" 2021 50 150 0 (1#4) 0 0 7 0 0;
      mkRow "US" "NA" 2020 100 900 0 (1#10) 0 0 5 0 0 ].
Proof.
  refine (proj1 (raw_data_latest_first
                   [ mkRow "US" "NA" 2020 100 900 0 (1#10) 0 0 5 0 0;
                     mkRow "DE" "EU" 2021 50 150 0 (1#4) 0 0 7 0 0 ]
                   [ mkRow "DE" "EU" 2021 50 150 0 (1#4) 0 0 7 0 0;
                     mkRow "US" "NA" 2020 100 900 0 (1#10) 0 0 5 0 0 ] _)).
  exact (sort_values_year_stable_spec
           [ mkRow "US" "NA" 2020 100 900 0 (1#10) 0 0 5 0 0;
             mkRow "DE" "EU" 2021 50 150 0 (1#4) 0 0 7 0 0 ]).
Defined.

(** ** The charts show only what is selected *)

Lemma filtered_df_In (df : DataFrame) (sel : list string) (yr : Z * Z)
  (r : row) :
  In r (filtered_df df sel yr) -> selected sel yr r.
Proof.
  unfold filtered_df. rewrite filter_In. intros [_ H].
  now apply row_mask_selected.
Qed.

(** X18: the tables behind the charts hold nothing outside the
    selection: every year of the sales-over-time table, the latest year
    and every column of the heatmap lie within the selected year range,
    and every country of the market-share table, of the heatmap and of the
    GDP scatter is a selected country. *)
Theorem charts_within_selection (df : DataFrame) (sel : list string)
  (lo hi : Z) :
  (forall s, In s (sales_by_year (filtered_df df sel (lo, hi))) ->
     lo <= s_year s <= hi)
  /\ (forall y, latest_year (filtered_df df sel (lo, hi)) = Some y ->
        lo <= y <= hi)
  /\ (forall g, In g (market_share_table (filtered_df df sel (lo, hi))) ->
        In (m_country g) sel)
  /\ (forall g, In g (gdp_ev_data (filtered_df df sel (lo, hi))) ->
        In (country (g_row g)) sel)
  /\ exists p,
       heatmap_z (filtered_df df sel (lo, hi)) = Returned p
       /\ (forall c, In c (p_index p) -> In c sel)
       /\ (forall y, In y (p_columns p) -> lo <= y <= hi).
Proof.
  split; [|split; [|split; [|split]]].
  - intros s Hs. apply (in_map s_year) in Hs.
    rewrite sales_by_year_years in Hs. apply year_keys_In in Hs.
    destruct Hs as [r [Hr <-]]. apply filtered_df_In in Hr. apply Hr.
  - intros y Hy. apply latest_year_spec in Hy.
    destruct Hy as [[r [Hr <-]] _]. apply filtered_df_In in Hr. apply Hr.
  - intros g Hg. apply market_share_table_In in Hg.
    destruct Hg as [c [-> [r [Hr <-]]]]. apply filtered_df_In in Hr.
    apply Hr.
  - intros g Hg. apply (in_map g_row) in Hg. rewrite gdp_ev_data_rows in Hg.
    apply (Subseq_In _ _ (Subseq_drop_duplicates_from [] _)) in Hg.
    apply latest_data_year in Hg. destruct Hg as [Hg _].
    apply filtered_df_In in Hg. apply Hg.
  - eexists. split; [apply heatmap_z_returns|]. cbn [p_index p_columns].
    split.
    + intros c Hc. apply heatmap_index_In in Hc.
      destruct Hc as [r [Hr <-]]. apply filtered_df_In in Hr. apply Hr.
    + intros y Hy. apply heatmap_columns_In in Hy.
      destruct Hy as [r [Hr <-]]. apply filtered_df_In in Hr. apply Hr.
Qed.
